(** * RopeMackMemories: the editor's state machine, verified

    A shallow embedding of [src/App.tsx] (the [App] component, its handlers
    and the helper [dataURLtoFile]) together with the parts of
    [ApiKeyModal] and [CropPanel] that gate those handlers.

    Conventions of the embedding.
    - A JavaScript [number] that may be fractional (pointer offsets, crop
      rectangles, scale ratios) is an exact rational [Q]; integral
      quantities (array lengths, the history index, image dimensions) are
      [Z].  IEEE rounding of intermediate products is not modelled.
    - A JavaScript string is a [string]: a sequence of 8-bit code units.
    - React state is a record; a handler is a function from the state of
      the render that created it to the next state.  A closure that outlives
      its render (the [action] of the four generation handlers) is
      defunctionalised: it is a value of type [Action] that stores every
      variable it captured, including the [history] and [historyIndex]
      that its [addImageToHistory] closed over.
    - The browser and the generation service are the environment: what they
      return (timestamps, the canvas bitmap, the service's answer) comes in
      as data of the event.
    - One event (a handler run, a timer callback, the continuation of an
      [await]) is one transition: the setters it calls take effect together.

    Left out: rendering, the object URLs made for the images, the compare
    and download controls, the aspect of the crop, and the face library of
    [StartScreen], the only code that writes local storage. *)

From Stdlib Require Import ZArith QArith Qround Qabs Lqa Lia Ascii String List.
From stdpp Require Import base option list strings pretty gmap.

Local Open Scope Z_scope.

(** ** JavaScript built-ins used by the code *)

Module JS.

(** What a [throw] carries.  [ErrorObject m] is an instance of [Error]
    with message [m] (a [DOMException] is one as well); [OtherValue] is any
    thrown value that is not. *)
Inductive Thrown :=
| ErrorObject (message : string)
| OtherValue.

(** A computation that returns or throws. *)
Inductive Completion (A : Type) :=
| Normal (a : A)
| Throw (e : Thrown).
Arguments Normal {A} a.
Arguments Throw {A} e.

#[global] Instance Completion_ret : MRet Completion := fun _ a => Normal a.

#[global] Instance Completion_bind : MBind Completion := fun _ _ k c =>
  match c with
  | Normal a => k a
  | Throw e => Throw e
  end.

Definition char_is (c d : ascii) : bool := Ascii.eqb c d.

(** [s.split(',')]: the pieces of [s] between commas; never empty. *)
Fixpoint split_comma (s : string) : list string :=
  match s with
  | EmptyString => [EmptyString]
  | String c r =>
      if char_is c ","
      then EmptyString :: split_comma r
      else match split_comma r with
           | [] => [String c EmptyString]
           | p :: ps => String c p :: ps
           end
  end.

(** The characters that [.] does not match (8-bit code units: LF and CR). *)
Definition is_line_terminator (c : ascii) : bool :=
  char_is c (ascii_of_nat 10) || char_is c (ascii_of_nat 13).

(** [(.*?);] anchored at the head of [s]: the shortest run of characters
    other than line terminators that is followed by a semicolon. *)
Fixpoint lazy_dots_then_semicolon (s : string) : option string :=
  match s with
  | EmptyString => None
  | String c r =>
      if char_is c ";" then Some EmptyString
      else if is_line_terminator c then None
      else String c <$> lazy_dots_then_semicolon r
  end.

(** [s.match(/:(.*?);/)], reduced to what the code reads of it: [None] for a
    [null] result, otherwise capture group 1 of the leftmost match. *)
Fixpoint match_colon_semicolon (s : string) : option string :=
  match s with
  | EmptyString => None
  | String c r =>
      if char_is c ":"
      then match lazy_dots_then_semicolon r with
           | Some g => Some g
           | None => match_colon_semicolon r
           end
      else match_colon_semicolon r
  end.

(** Truthiness of a string: every string but the empty one. *)
Definition truthy (s : string) : bool :=
  match s with
  | EmptyString => false
  | String _ _ => true
  end.

(** White space and line terminators removed by [trim] (8-bit code units:
    TAB, LF, VT, FF, CR, SPACE, NBSP). *)
Definition is_trim_space (c : ascii) : bool :=
  let n := N_of_ascii c in
  ((9 <=? n) && (n <=? 13))%N || (n =? 32)%N || (n =? 160)%N.

Fixpoint trim_start (s : string) : string :=
  match s with
  | EmptyString => EmptyString
  | String c r => if is_trim_space c then trim_start r else s
  end.

Fixpoint trim_end (s : string) : string :=
  match s with
  | EmptyString => EmptyString
  | String c r =>
      match trim_end r with
      | EmptyString => if is_trim_space c then EmptyString else String c EmptyString
      | r' => String c r'
      end
  end.

(** [s.trim()] *)
Definition trim (s : string) : string := trim_end (trim_start s).

(** *** [atob]: forgiving base64 decoding *)

Definition is_ascii_whitespace (c : ascii) : bool :=
  let n := N_of_ascii c in
  ((n =? 9) || (n =? 10) || (n =? 12) || (n =? 13) || (n =? 32))%N.

Definition base64_value (c : ascii) : option N :=
  let n := N_of_ascii c in
  (if (65 <=? n) && (n <=? 90) then Some (n - 65)
   else if (97 <=? n) && (n <=? 122) then Some (n - 71)
   else if (48 <=? n) && (n <=? 57) then Some (n + 4)
   else if n =? 43 then Some 62
   else if n =? 47 then Some 63
   else None)%N.

Definition strip_whitespace (l : list ascii) : list ascii :=
  filter (fun c => is_ascii_whitespace c = false) l.

(** Drops one or two trailing [=] signs when the length is a multiple of 4. *)
Definition strip_padding (l : list ascii) : list ascii :=
  if (length l mod 4 =? 0)%nat then
    match reverse l with
    | c1 :: c2 :: r =>
        if char_is c1 "=" then
          if char_is c2 "=" then reverse r else reverse (c2 :: r)
        else l
    | _ => l
    end
  else l.

Fixpoint sextets (l : list ascii) : option (list N) :=
  match l with
  | [] => Some []
  | c :: r =>
      match base64_value c, sextets r with
      | Some v, Some vs => Some (v :: vs)
      | _, _ => None
      end
  end.

(** Four sextets give three bytes; a rest of three gives two bytes and a rest
    of two gives one, the unused low bits being discarded. *)
Fixpoint octets (l : list N) : list N :=
  match l with
  | a :: b :: c :: d :: r =>
      let w := N.lor (N.shiftl a 18) (N.lor (N.shiftl b 12) (N.lor (N.shiftl c 6) d)) in
      N.shiftr w 16 :: N.land (N.shiftr w 8) 255 :: N.land w 255 :: octets r
  | [a; b; c] =>
      let w := N.lor (N.shiftl a 10) (N.lor (N.shiftl b 4) (N.shiftr c 2)) in
      [N.shiftr w 8; N.land w 255]
  | [a; b] => [N.lor (N.shiftl a 2) (N.shiftr b 4)]
  | _ => []
  end.

(** The message of the [DOMException] (an [InvalidCharacterError]) that
    [atob] throws; its wording is the browser's. *)
Definition atob_message : string :=
  "The string to be decoded is not correctly encoded.".

(** [atob(data)]: the binary string, as the list of its code units. *)
Definition atob (data : string) : Completion (list N) :=
  let l := strip_padding (strip_whitespace (list_ascii_of_string data)) in
  if (length l mod 4 =? 1)%nat then Throw (ErrorObject atob_message)
  else match sextets l with
       | None => Throw (ErrorObject atob_message)
       | Some vs => Normal (octets vs)
       end.

(** [bstr.charCodeAt(n)] for [n] within the string. *)
Definition charCodeAt (bstr : list N) (n : nat) : N := default 0%N (bstr !! n).

(** [arr.slice(start, end)] with JavaScript's treatment of negative and
    oversized bounds. *)
Definition relative_index (len k : Z) : Z :=
  if k <? 0 then Z.max (len + k) 0 else Z.min k len.

Definition slice {A} (arr : list A) (start end_ : Z) : list A :=
  let len := Z.of_nat (length arr) in
  let from := relative_index len start in
  let to := relative_index len end_ in
  take (Z.to_nat (Z.max (to - from) 0)) (drop (Z.to_nat from) arr).

(** [arr[i] ?? null] for an integral [i]. *)
Definition index_or_null {A} (arr : list A) (i : Z) : option A :=
  if i <? 0 then None else arr !! Z.to_nat i.

(** [Math.round]: the nearest integer, a tie going up. *)
Definition Math_round (q : Q) : Z := Qfloor (q + (1 # 2))%Q.

(** The decimal digits of a non-negative integer, as in a template literal. *)
Definition to_decimal (n : N) : string :=
  pretty n.

End JS.

Import JS.

(** ** Data model *)

(** A [File]: the name and the [type] option given to the constructor, and
    the bytes of its single part. *)
Record File := {
  file_name : string;
  file_type : string;
  file_bits : list N;
}.

(** [{ x: number, y: number }] *)
Record Point := {
  pt_x : Q;
  pt_y : Q;
}.

Inductive Tab := retouch | adjust | filters | crop_tab.

Inductive CropUnit := px | percent.

(** The [Crop] and [PixelCrop] of react-image-crop. *)
Record Crop := {
  crop_unit : CropUnit;
  crop_x : Q;
  crop_y : Q;
  crop_width : Q;
  crop_height : Q;
}.

Record PixelCrop := {
  pc_x : Q;
  pc_y : Q;
  pc_width : Q;
  pc_height : Q;
}.

(** The closure [action] built by a generation handler, with the variables it
    captured.  [h] and [i] are the [history] and [historyIndex] that the
    captured [addImageToHistory] closed over. *)
Inductive Action :=
| MemoryAction (faceDataUrl prompt : string)
| EditAction (currentImage : File) (prompt : string) (editHotspot : Point)
    (h : list File) (i : Z)
| FilterAction (currentImage : File) (filterPrompt : string)
    (h : list File) (i : Z)
| AdjustAction (currentImage : File) (adjustmentPrompt : string)
    (h : list File) (i : Z).

(** The state hooks of [App] that its handlers read or write. *)
Record AppState := {
  history : list File;
  historyIndex : Z;
  prompt : string;
  isLoading : bool;
  error : option string;
  editHotspot : option Point;
  displayHotspot : option Point;
  activeTab : Tab;
  crop : option Crop;
  completedCrop : option PixelCrop;
  apiKey : option string;
  isApiKeyModalOpen : bool;
  pendingAction : option Action;
}.

(** The state setters. *)
Definition setHistory (v : list File) (s : AppState) : AppState :=
  {| history := v; historyIndex := historyIndex s; prompt := prompt s;
     isLoading := isLoading s; error := error s;
     editHotspot := editHotspot s; displayHotspot := displayHotspot s;
     activeTab := activeTab s; crop := crop s;
     completedCrop := completedCrop s; apiKey := apiKey s;
     isApiKeyModalOpen := isApiKeyModalOpen s;
     pendingAction := pendingAction s |}.

Definition setHistoryIndex (v : Z) (s : AppState) : AppState :=
  {| history := history s; historyIndex := v; prompt := prompt s;
     isLoading := isLoading s; error := error s;
     editHotspot := editHotspot s; displayHotspot := displayHotspot s;
     activeTab := activeTab s; crop := crop s;
     completedCrop := completedCrop s; apiKey := apiKey s;
     isApiKeyModalOpen := isApiKeyModalOpen s;
     pendingAction := pendingAction s |}.

Definition setPrompt (v : string) (s : AppState) : AppState :=
  {| history := history s; historyIndex := historyIndex s; prompt := v;
     isLoading := isLoading s; error := error s;
     editHotspot := editHotspot s; displayHotspot := displayHotspot s;
     activeTab := activeTab s; crop := crop s;
     completedCrop := completedCrop s; apiKey := apiKey s;
     isApiKeyModalOpen := isApiKeyModalOpen s;
     pendingAction := pendingAction s |}.

Definition setIsLoading (v : bool) (s : AppState) : AppState :=
  {| history := history s; historyIndex := historyIndex s;
     prompt := prompt s; isLoading := v; error := error s;
     editHotspot := editHotspot s; displayHotspot := displayHotspot s;
     activeTab := activeTab s; crop := crop s;
     completedCrop := completedCrop s; apiKey := apiKey s;
     isApiKeyModalOpen := isApiKeyModalOpen s;
     pendingAction := pendingAction s |}.

Definition setError (v : option string) (s : AppState) : AppState :=
  {| history := history s; historyIndex := historyIndex s;
     prompt := prompt s; isLoading := isLoading s; error := v;
     editHotspot := editHotspot s; displayHotspot := displayHotspot s;
     activeTab := activeTab s; crop := crop s;
     completedCrop := completedCrop s; apiKey := apiKey s;
     isApiKeyModalOpen := isApiKeyModalOpen s;
     pendingAction := pendingAction s |}.

Definition setEditHotspot (v : option Point) (s : AppState) : AppState :=
  {| history := history s; historyIndex := historyIndex s;
     prompt := prompt s; isLoading := isLoading s; error := error s;
     editHotspot := v; displayHotspot := displayHotspot s;
     activeTab := activeTab s; crop := crop s;
     completedCrop := completedCrop s; apiKey := apiKey s;
     isApiKeyModalOpen := isApiKeyModalOpen s;
     pendingAction := pendingAction s |}.

Definition setDisplayHotspot (v : option Point) (s : AppState) : AppState :=
  {| history := history s; historyIndex := historyIndex s;
     prompt := prompt s; isLoading := isLoading s; error := error s;
     editHotspot := editHotspot s; displayHotspot := v;
     activeTab := activeTab s; crop := crop s;
     completedCrop := completedCrop s; apiKey := apiKey s;
     isApiKeyModalOpen := isApiKeyModalOpen s;
     pendingAction := pendingAction s |}.

Definition setActiveTab (v : Tab) (s : AppState) : AppState :=
  {| history := history s; historyIndex := historyIndex s;
     prompt := prompt s; isLoading := isLoading s; error := error s;
     editHotspot := editHotspot s; displayHotspot := displayHotspot s;
     activeTab := v; crop := crop s; completedCrop := completedCrop s;
     apiKey := apiKey s; isApiKeyModalOpen := isApiKeyModalOpen s;
     pendingAction := pendingAction s |}.

Definition setCrop (v : option Crop) (s : AppState) : AppState :=
  {| history := history s; historyIndex := historyIndex s;
     prompt := prompt s; isLoading := isLoading s; error := error s;
     editHotspot := editHotspot s; displayHotspot := displayHotspot s;
     activeTab := activeTab s; crop := v; completedCrop := completedCrop s;
     apiKey := apiKey s; isApiKeyModalOpen := isApiKeyModalOpen s;
     pendingAction := pendingAction s |}.

Definition setCompletedCrop (v : option PixelCrop) (s : AppState) : AppState :=
  {| history := history s; historyIndex := historyIndex s;
     prompt := prompt s; isLoading := isLoading s; error := error s;
     editHotspot := editHotspot s; displayHotspot := displayHotspot s;
     activeTab := activeTab s; crop := crop s; completedCrop := v;
     apiKey := apiKey s; isApiKeyModalOpen := isApiKeyModalOpen s;
     pendingAction := pendingAction s |}.

Definition setApiKey (v : option string) (s : AppState) : AppState :=
  {| history := history s; historyIndex := historyIndex s;
     prompt := prompt s; isLoading := isLoading s; error := error s;
     editHotspot := editHotspot s; displayHotspot := displayHotspot s;
     activeTab := activeTab s; crop := crop s;
     completedCrop := completedCrop s; apiKey := v;
     isApiKeyModalOpen := isApiKeyModalOpen s;
     pendingAction := pendingAction s |}.

Definition setIsApiKeyModalOpen (v : bool) (s : AppState) : AppState :=
  {| history := history s; historyIndex := historyIndex s;
     prompt := prompt s; isLoading := isLoading s; error := error s;
     editHotspot := editHotspot s; displayHotspot := displayHotspot s;
     activeTab := activeTab s; crop := crop s;
     completedCrop := completedCrop s; apiKey := apiKey s;
     isApiKeyModalOpen := v; pendingAction := pendingAction s |}.

Definition setPendingAction (v : option Action) (s : AppState) : AppState :=
  {| history := history s; historyIndex := historyIndex s;
     prompt := prompt s; isLoading := isLoading s; error := error s;
     editHotspot := editHotspot s; displayHotspot := displayHotspot s;
     activeTab := activeTab s; crop := crop s;
     completedCrop := completedCrop s; apiKey := apiKey s;
     isApiKeyModalOpen := isApiKeyModalOpen s; pendingAction := v |}.

(** Setters called one after the other, in the order of the source. *)
Notation "s |> f" := (f s) (at level 68, left associativity, only parsing).

(** ** [dataURLtoFile] *)

(** The loop [while (n--) { u8arr[n] = bstr.charCodeAt(n); }]: a
    [Uint8Array] element keeps the low eight bits of what is stored. *)
Fixpoint fill_u8arr (bstr : list N) (n : nat) (u8arr : list N) : list N :=
  match n with
  | O => u8arr
  | S n' => fill_u8arr bstr n' (<[n' := (charCodeAt bstr n' mod 256)%N]> u8arr)
  end.

Definition dataURLtoFile (dataurl filename : string) : Completion File :=
  match split_comma dataurl with
  | header :: payload :: _ =>
      match match_colon_semicolon header with
      | Some mime =>
          if truthy mime then
            bstr ← atob payload;
            let n := length bstr in
            let u8arr := fill_u8arr bstr n (replicate n 0%N) in
            mret {| file_name := filename; file_type := mime; file_bits := u8arr |}
          else Throw (ErrorObject "Could not parse MIME type from data URL")
      | None => Throw (ErrorObject "Could not parse MIME type from data URL")
      end
  | _ => Throw (ErrorObject "Invalid data URL")
  end.

(** [err instanceof Error ? err.message : 'An unknown error occurred.'] *)
Definition errorMessage (err : Thrown) : string :=
  match err with
  | ErrorObject message => message
  | OtherValue => "An unknown error occurred."
  end.

(** A file name [`prefix-${Date.now()}.png`]. *)
Definition stamped (prefix : string) (now : N) : string :=
  prefix +:+ "-" +:+ to_decimal now +:+ ".png".

(** ** The history store *)

Definition currentImage (s : AppState) : option File :=
  index_or_null (history s) (historyIndex s).

Definition originalImage (s : AppState) : option File :=
  index_or_null (history s) 0.

Definition canUndo (s : AppState) : bool := 0 <? historyIndex s.

Definition canRedo (s : AppState) : bool :=
  historyIndex s <? Z.of_nat (length (history s)) - 1.

(** [addImageToHistory], as created by a render whose [history] was [h] and
    whose [historyIndex] was [i]. *)
Definition addImageToHistory (h : list File) (i : Z) (newImageFile : File)
    (s : AppState) : AppState :=
  let newHistory := slice h 0 (i + 1) ++ [newImageFile] in
  s |> setHistory newHistory
    |> setHistoryIndex (Z.of_nat (length newHistory) - 1)
    |> setCrop None
    |> setCompletedCrop None.

Definition handleImageUpload (file : File) (s : AppState) : AppState :=
  s |> setError None
    |> setHistory [file]
    |> setHistoryIndex 0
    |> setEditHotspot None
    |> setDisplayHotspot None
    |> setActiveTab retouch
    |> setCrop None
    |> setCompletedCrop None.

(** [files] is [None] for [null]; [files[0]] is falsy for an empty list. *)
Definition handleFileSelect (files : option (list File)) (s : AppState) : AppState :=
  match files with
  | Some (file :: _) => handleImageUpload file s
  | _ => s
  end.

Definition handleUndo (s : AppState) : AppState :=
  if canUndo s then
    s |> setHistoryIndex (historyIndex s - 1)
      |> setEditHotspot None
      |> setDisplayHotspot None
  else s.

Definition handleRedo (s : AppState) : AppState :=
  if canRedo s then
    s |> setHistoryIndex (historyIndex s + 1)
      |> setEditHotspot None
      |> setDisplayHotspot None
  else s.

Definition handleReset (s : AppState) : AppState :=
  if 0 <? Z.of_nat (length (history s)) then
    s |> setHistoryIndex 0
      |> setError None
      |> setEditHotspot None
      |> setDisplayHotspot None
  else s.

Definition handleUploadNew (s : AppState) : AppState :=
  s |> setHistory []
    |> setHistoryIndex (-1)
    |> setError None
    |> setPrompt ""
    |> setEditHotspot None
    |> setDisplayHotspot None.

(** ** The hotspot selector *)

(** What [handleImageClick] reads of the mouse event and of its target. *)
Record ClickEvent := {
  clientX : Q;
  clientY : Q;
  rect_left : Q;
  rect_top : Q;
  naturalWidth : Z;
  naturalHeight : Z;
  clientWidth : Z;
  clientHeight : Z;
}.

(** The two axes go through the same two expressions: the ratio
    [natural / client] and [Math.round(offset * ratio)]. *)
Definition scale (natural client : Z) : Q :=
  (inject_Z natural / inject_Z client)%Q.

Definition native_coordinate (offset : Q) (natural client : Z) : Z :=
  Math_round (offset * scale natural client).

Definition offsetX (e : ClickEvent) : Q := (clientX e - rect_left e)%Q.
Definition offsetY (e : ClickEvent) : Q := (clientY e - rect_top e)%Q.
Definition originalX (e : ClickEvent) : Z :=
  native_coordinate (offsetX e) (naturalWidth e) (clientWidth e).
Definition originalY (e : ClickEvent) : Z :=
  native_coordinate (offsetY e) (naturalHeight e) (clientHeight e).

Definition handleImageClick (e : ClickEvent) (s : AppState) : AppState :=
  match activeTab s with
  | retouch =>
      s |> setDisplayHotspot (Some {| pt_x := offsetX e; pt_y := offsetY e |})
        |> setEditHotspot
             (Some {| pt_x := inject_Z (originalX e); pt_y := inject_Z (originalY e) |})
  | _ => s
  end.

(** ** The crop renderer *)

(** The [<img>] behind [imgRef]. *)
Record ImageElement := {
  img_naturalWidth : Z;
  img_naturalHeight : Z;
  img_width : Z;
  img_height : Z;
}.

(** What the browser contributes to one run of [handleApplyCrop]:
    [imgRef.current], whether [getContext('2d')] gives a context,
    [window.devicePixelRatio], the string that [canvas.toDataURL] returns
    for the bitmap drawn, and [Date.now()]. *)
Record CropEnv := {
  imgRef_current : option ImageElement;
  has_context2d : bool;
  devicePixelRatio : Q;
  canvas_toDataURL : string;
  crop_now : N;
}.

(** [window.devicePixelRatio || 1] *)
Definition pixelRatio (env : CropEnv) : Q :=
  if Qeq_bool (devicePixelRatio env) 0 then 1%Q else devicePixelRatio env.

(** The size given to the canvas before drawing. *)
Definition canvasSize (c : PixelCrop) (env : CropEnv) : Q * Q :=
  ((pc_width c * pixelRatio env)%Q, (pc_height c * pixelRatio env)%Q).


(** [handleApplyCrop].  It has no [try]: what [dataURLtoFile] throws leaves
    the handler, and no setter has run by then. *)
Definition handleApplyCrop (env : CropEnv) (s : AppState) : Completion AppState :=
  match completedCrop s, imgRef_current env with
  | Some _, Some _ =>
      if has_context2d env then
        newImageFile ← dataURLtoFile (canvas_toDataURL env)
                         (stamped "cropped" (crop_now env));
        mret (addImageToHistory (history s) (historyIndex s) newImageFile s)
      else mret (s |> setError (Some "Could not process the crop."))
  | _, _ => mret (s |> setError (Some "Please select an area to crop."))
  end.

(** The state after the event: an exception that leaves a handler changes
    nothing. *)
Definition settled (c : Completion AppState) (s : AppState) : AppState :=
  match c with
  | Normal s' => s'
  | Throw _ => s
  end.

(** The [isCropping] prop given to [CropPanel]:
    [!!completedCrop?.width && completedCrop.width > 0]. *)
Definition isCropping (s : AppState) : bool :=
  match completedCrop s with
  | Some c =>
      negb (Qeq_bool (pc_width c) 0)
      && match Qlt_le_dec 0 (pc_width c) with left _ => true | right _ => false end
  | None => false
  end.

(** The [disabled] attribute of the Apply Crop button. *)
Definition CropPanel_apply_disabled (s : AppState) : bool :=
  isLoading s || negb (isCropping s).

(** A click on the Apply Crop button: a disabled button runs no handler. *)
Definition CropPanel_apply_click (env : CropEnv) (s : AppState) : Completion AppState :=
  if CropPanel_apply_disabled s then mret s else handleApplyCrop env s.

(** ** The generation service and the credential gate *)

(** One invocation of the generation service, with its arguments. *)
Inductive ServiceCall :=
| generateEditedImage (key : string) (image : File) (prompt : string) (hotspot : Point)
| generateFilteredImage (key : string) (image : File) (filterPrompt : string)
| generateAdjustedImage (key : string) (image : File) (adjustmentPrompt : string)
| generateMemory (key : string) (faceFile : File) (prompt : string).


(** The component in its environment: both web storages, the callbacks given
    to [setTimeout] and not yet run (the pending action and the key it will
    get), the actions suspended at their [await], and the invocations of the
    generation service so far, oldest first. *)
Record World := {
  app : AppState;
  sessionStorage : gmap string string;
  localStorage : gmap string string;
  timers : list (Action * string);
  awaiting : list Action;
  serviceCalls : list ServiceCall;
}.

Definition with_app (f : AppState -> AppState) (w : World) : World :=
  {| app := f (app w); sessionStorage := sessionStorage w;
     localStorage := localStorage w; timers := timers w;
     awaiting := awaiting w; serviceCalls := serviceCalls w |}.

Definition with_sessionStorage (f : gmap string string -> gmap string string)
    (w : World) : World :=
  {| app := app w; sessionStorage := f (sessionStorage w);
     localStorage := localStorage w; timers := timers w;
     awaiting := awaiting w; serviceCalls := serviceCalls w |}.

Definition with_timers (f : list (Action * string) -> list (Action * string))
    (w : World) : World :=
  {| app := app w; sessionStorage := sessionStorage w;
     localStorage := localStorage w; timers := f (timers w);
     awaiting := awaiting w; serviceCalls := serviceCalls w |}.

Definition with_awaiting (f : list Action -> list Action) (w : World) : World :=
  {| app := app w; sessionStorage := sessionStorage w;
     localStorage := localStorage w; timers := timers w;
     awaiting := f (awaiting w); serviceCalls := serviceCalls w |}.

(** The service is invoked: the call is logged and the caller waits. *)
Definition invoke (c : ServiceCall) (a : Action) (w : World) : World :=
  {| app := app w; sessionStorage := sessionStorage w;
     localStorage := localStorage w; timers := timers w;
     awaiting := awaiting w ++ [a]; serviceCalls := serviceCalls w ++ [c] |}.

(** The prefix of the message shown when an action fails. *)
Definition failure_prefix (a : Action) : string :=
  match a with
  | MemoryAction _ _ => "Failed to create memory. "
  | EditAction _ _ _ _ _ => "Failed to generate the image. "
  | FilterAction _ _ _ _ => "Failed to apply the filter. "
  | AdjustAction _ _ _ _ => "Failed to apply the adjustment. "
  end.

(** The [catch] and [finally] blocks of an action. *)
Definition action_catch (a : Action) (err : Thrown) (s : AppState) : AppState :=
  s |> setError (Some (failure_prefix a +:+ errorMessage err))
    |> setIsLoading false.

(** [action(key)] up to its [await]: the service is invoked with [key],
    unless [dataURLtoFile] throws on the face image first. *)
Definition action_call (a : Action) (key : string) (now : N) (w : World) : World :=
  let w := w |> with_app (fun s => s |> setIsLoading true |> setError None) in
  match a with
  | MemoryAction faceDataUrl prompt =>
      match dataURLtoFile faceDataUrl (stamped "face" now) with
      | Normal faceFile => invoke (generateMemory key faceFile prompt) a w
      | Throw err => w |> with_app (action_catch a err)
      end
  | EditAction currentImage prompt editHotspot _ _ =>
      invoke (generateEditedImage key currentImage prompt editHotspot) a w
  | FilterAction currentImage filterPrompt _ _ =>
      invoke (generateFilteredImage key currentImage filterPrompt) a w
  | AdjustAction currentImage adjustmentPrompt _ _ =>
      invoke (generateAdjustedImage key currentImage adjustmentPrompt) a w
  end.

(** The [try] block of an action after its [await], given the data URL the
    service resolved with. *)
Definition action_then (a : Action) (url : string) (now : N) (s : AppState)
    : Completion AppState :=
  match a with
  | MemoryAction _ _ =>
      newImageFile ← dataURLtoFile url (stamped "memory" now);
      mret (s |> setHistory [newImageFile]
              |> setHistoryIndex 0
              |> setEditHotspot None
              |> setDisplayHotspot None
              |> setActiveTab retouch)
  | EditAction _ _ _ h i =>
      newImageFile ← dataURLtoFile url (stamped "edited" now);
      mret (s |> addImageToHistory h i newImageFile
              |> setEditHotspot None
              |> setDisplayHotspot None)
  | FilterAction _ _ h i =>
      newImageFile ← dataURLtoFile url (stamped "filtered" now);
      mret (s |> addImageToHistory h i newImageFile)
  | AdjustAction _ _ h i =>
      newImageFile ← dataURLtoFile url (stamped "adjusted" now);
      mret (s |> addImageToHistory h i newImageFile)
  end.

(** The rest of an action once the service has settled: [outcome] is the
    data URL it resolved with or what it rejected with. *)
Definition action_resume (a : Action) (outcome : Completion string) (now : N)
    (s : AppState) : AppState :=
  match url ← outcome; action_then a url now s with
  | Normal s' => s' |> setIsLoading false
  | Throw err => action_catch a err s
  end.

(** The end of each generation handler:
    [if (!apiKey) { setPendingAction(() => action); setIsApiKeyModalOpen(true); }
     else { action(apiKey); }] *)
Definition run_or_defer (action : Action) (now : N) (w : World) : World :=
  match apiKey (app w) with
  | Some key =>
      if truthy key then action_call action key now w
      else w |> with_app (fun s =>
             s |> setPendingAction (Some action) |> setIsApiKeyModalOpen true)
  | None =>
      w |> with_app (fun s =>
        s |> setPendingAction (Some action) |> setIsApiKeyModalOpen true)
  end.

Definition handleCreateMemory (faceDataUrl prompt : string) (now : N)
    (w : World) : World :=
  run_or_defer (MemoryAction faceDataUrl prompt) now w.

Definition handleGenerate (now : N) (w : World) : World :=
  let s := app w in
  match currentImage s with
  | None => w |> with_app (setError (Some "No image loaded to edit."))
  | Some image =>
      if negb (truthy (trim (prompt s))) then
        w |> with_app (setError (Some "Please enter a description for your edit."))
      else
        match editHotspot s with
        | None =>
            w |> with_app
              (setError (Some "Please click on the image to select an area to edit."))
        | Some hotspot =>
            run_or_defer
              (EditAction image (prompt s) hotspot (history s) (historyIndex s))
              now w
        end
  end.

Definition handleApplyFilter (filterPrompt : string) (now : N) (w : World) : World :=
  let s := app w in
  match currentImage s with
  | None => w |> with_app (setError (Some "No image loaded to apply a filter to."))
  | Some image =>
      run_or_defer (FilterAction image filterPrompt (history s) (historyIndex s))
        now w
  end.

Definition handleApplyAdjustment (adjustmentPrompt : string) (now : N)
    (w : World) : World :=
  let s := app w in
  match currentImage s with
  | None =>
      w |> with_app (setError (Some "No image loaded to apply an adjustment to."))
  | Some image =>
      run_or_defer
        (AdjustAction image adjustmentPrompt (history s) (historyIndex s)) now w
  end.

(** [handleApiKeySubmit]: the pending action is handed to [setTimeout]
    together with the key. *)
Definition handleApiKeySubmit (newApiKey : string) (w : World) : World :=
  let trimmedKey := trim newApiKey in
  if truthy trimmedKey then
    w |> with_app (fun s => s |> setApiKey (Some trimmedKey))
      |> with_sessionStorage (<["user-api-key" := trimmedKey]>)
      |> with_app (fun s => s |> setIsApiKeyModalOpen false)
      |> with_timers (fun ts =>
           match pendingAction (app w) with
           | Some action => ts ++ [(action, trimmedKey)]
           | None => ts
           end)
  else w.

(** The callback of that [setTimeout]:
    [pendingAction(trimmedKey); setPendingAction(null);] *)
Definition timer_fires (now : N) (w : World) : World :=
  match timers w with
  | (action, trimmedKey) :: rest =>
      w |> with_timers (fun _ => rest)
        |> action_call action trimmedKey now
        |> with_app (setPendingAction None)
  | [] => w
  end.

(** The service settles the [k]-th waiting action. *)
Definition service_settles (k : nat) (outcome : Completion string) (now : N)
    (w : World) : World :=
  match awaiting w !! k with
  | Some a =>
      w |> with_awaiting (delete k)
        |> with_app (action_resume a outcome now)
  | None => w
  end.

(** The form of [ApiKeyModal] and its [onClose]. *)
Definition ApiKeyModal_handleSubmit (key : string) (w : World) : World :=
  if truthy (trim key) then handleApiKeySubmit (trim key) w else w.

Definition ApiKeyModal_onClose (w : World) : World :=
  w |> with_app (fun s => s |> setIsApiKeyModalOpen false |> setPendingAction None).

(** The first render: [apiKey] starts as the stored key, if any. *)
Definition initialState (stored : option string) : AppState :=
  {| history := []; historyIndex := -1; prompt := ""; isLoading := false;
     error := None; editHotspot := None; displayHotspot := None;
     activeTab := retouch; crop := None; completedCrop := None;
     apiKey := stored; isApiKeyModalOpen := false; pendingAction := None |}.

Definition initialWorld (session local : gmap string string) : World :=
  {| app := initialState (session !! "user-api-key");
     sessionStorage := session; localStorage := local;
     timers := []; awaiting := []; serviceCalls := [] |}.

(** ** The event loop *)

(** Whatever can happen to the mounted component: a control is used, a timer
    fires or the service settles. *)
Inductive Event :=
| FileSelect (files : option (list File))
| CreateMemory (faceDataUrl prompt : string) (now : N)
| Generate (now : N)
| ApplyFilter (filterPrompt : string) (now : N)
| ApplyAdjustment (adjustmentPrompt : string) (now : N)
| ApplyCrop (env : CropEnv)
| Undo
| Redo
| Reset
| UploadNew
| ImageClick (e : ClickEvent)
| PromptChange (value : string)
| TabClick (tab : Tab)
| CropChange (c : Crop)
| CropComplete (c : PixelCrop)
| TryAgain
| ApiKeySubmit (key : string)
| ApiKeyClose
| TimerFires (now : N)
| ServiceSettles (k : nat) (outcome : Completion string) (now : N).

Definition step (w : World) (ev : Event) : World :=
  match ev with
  | FileSelect files => w |> with_app (handleFileSelect files)
  | CreateMemory faceDataUrl prompt now => handleCreateMemory faceDataUrl prompt now w
  | Generate now => handleGenerate now w
  | ApplyFilter filterPrompt now => handleApplyFilter filterPrompt now w
  | ApplyAdjustment adjustmentPrompt now => handleApplyAdjustment adjustmentPrompt now w
  | ApplyCrop env => w |> with_app (fun s => settled (handleApplyCrop env s) s)
  | Undo => w |> with_app handleUndo
  | Redo => w |> with_app handleRedo
  | Reset => w |> with_app handleReset
  | UploadNew => w |> with_app handleUploadNew
  | ImageClick e => w |> with_app (handleImageClick e)
  | PromptChange value => w |> with_app (setPrompt value)
  | TabClick tab => w |> with_app (setActiveTab tab)
  | CropChange c => w |> with_app (setCrop (Some c))
  | CropComplete c => w |> with_app (setCompletedCrop (Some c))
  | TryAgain => w |> with_app (setError None)
  | ApiKeySubmit key => ApiKeyModal_handleSubmit key w
  | ApiKeyClose => ApiKeyModal_onClose w
  | TimerFires now => timer_fires now w
  | ServiceSettles k outcome now => service_settles k outcome now w
  end.

(** The world after a sequence of events. *)
Definition run (w : World) (evs : list Event) : World := foldl step w evs.

(** ** Vocabulary of the properties *)

(** Whether the code unit [c] occurs in [s]. *)
Fixpoint occurs (c : ascii) (s : string) : bool :=
  match s with
  | EmptyString => false
  | String d r => char_is d c || occurs c r
  end.

(** The two ways in which the argument of [dataURLtoFile] is malformed, with
    the message each one gets: it has no comma, hence no payload; or the
    part before its first comma has no match for the MIME pattern, or an
    empty one. *)
Inductive Malformed (dataurl : string) : string -> Prop :=
| no_payload :
    occurs "," dataurl = false ->
    Malformed dataurl "Invalid data URL"
| no_mime_type header rest :
    dataurl = header +:+ String "," rest ->
    occurs "," header = false ->
    match_colon_semicolon header = None
    \/ match_colon_semicolon header = Some EmptyString ->
    Malformed dataurl "Could not parse MIME type from data URL".

(** The position is within the bounds of a non-empty history and is -1 for
    the empty one. *)
Definition position_ok (h : list File) (i : Z) : Prop :=
  (h <> [] -> 0 <= i <= Z.of_nat (length h) - 1) /\ (h = [] -> i = -1).

Definition history_ok (s : AppState) : Prop :=
  position_ok (history s) (historyIndex s).

(** A sample artifact, for the examples. *)
Definition file_of (n : N) : File :=
  {| file_name := stamped "edited" n; file_type := "image/png"; file_bits := [n] |}.


(** A credential is held: [apiKey] is a non-empty string. *)
Definition credential_held (s : AppState) : bool :=
  match apiKey s with
  | Some key => truthy key
  | None => false
  end.




(** The handler stopped at one of its checks: only the error message
    changes. *)
Definition refused (w w' : World) : Prop :=
  exists message : string, w' = (w |> with_app (setError (Some message))).


(** ** Vocabulary of the further properties *)

(** The prefix of the name an action gives to the file it makes. *)
Definition result_prefix (a : Action) : string :=
  match a with
  | MemoryAction _ _ => "memory"
  | EditAction _ _ _ _ _ => "edited"
  | FilterAction _ _ _ _ => "filtered"
  | AdjustAction _ _ _ _ => "adjusted"
  end.

(** The [history] and [historyIndex] an action captured, if it appends. *)
Definition captured (a : Action) : option (list File * Z) :=
  match a with
  | MemoryAction _ _ => None
  | EditAction _ _ _ h i => Some (h, i)
  | FilterAction _ _ h i => Some (h, i)
  | AdjustAction _ _ h i => Some (h, i)
  end.

(** The three actions that edit the current image, as events. *)
Definition edit_event (ev : Event) : bool :=
  match ev with
  | Generate _ | ApplyFilter _ _ | ApplyAdjustment _ _ => true
  | _ => false
  end.

(** The [disabled] attribute of the Generate button of the retouch form:
    [isLoading || !prompt.trim() || !editHotspot]. *)
Definition Generate_disabled (s : AppState) : bool :=
  isLoading s || negb (truthy (trim (prompt s)))
  || match editHotspot s with Some _ => false | None => true end.

(** The [disabled] attribute of the Continue button of [ApiKeyModal], for
    the text [key] in its input: [!key.trim()]. *)
Definition ApiKeyModal_continue_disabled (key : string) : bool :=
  negb (truthy (trim key)).

(** ** [JSON.stringify] and [JSON.parse] on arrays of strings

    The face library keeps a [string[]] in local storage.  [stringify] is
    the serialisation of such an array; [parse] reads a JSON text that is an
    array of strings.  A JSON text holding anything else, which the code
    never writes, is outside the model and counts as unreadable, like a
    malformed text. *)

Module JSON.

Definition quote : ascii := ascii_of_nat 34.
Definition backslash : ascii := ascii_of_nat 92.

(** A hexadecimal digit, in lower case. *)
Definition hex_digit (n : N) : ascii :=
  if (n <? 10)%N then ascii_of_N (48 + n) else ascii_of_N (87 + n).

(** The value of a hexadecimal digit of either case. *)
Definition hex_value (c : ascii) : option N :=
  let n := N_of_ascii c in
  (if (48 <=? n) && (n <=? 57) then Some (n - 48)
   else if (97 <=? n) && (n <=? 102) then Some (n - 87)
   else if (65 <=? n) && (n <=? 70) then Some (n - 55)
   else None)%N.

(** One code unit inside a quoted string. *)
Definition escape (c : ascii) : list ascii :=
  let n := N_of_ascii c in
  if (n =? 34)%N then [backslash; quote]
  else if (n =? 92)%N then [backslash; backslash]
  else if (n =? 8)%N then [backslash; "b"%char]
  else if (n =? 12)%N then [backslash; "f"%char]
  else if (n =? 10)%N then [backslash; "n"%char]
  else if (n =? 13)%N then [backslash; "r"%char]
  else if (n =? 9)%N then [backslash; "t"%char]
  else if (n <? 32)%N then
    [backslash; "u"%char; "0"%char; "0"%char;
     hex_digit (n / 16); hex_digit (n mod 16)]
  else [c].

Definition quoted (s : string) : list ascii :=
  quote :: concat (escape <$> list_ascii_of_string s) ++ [quote].

Fixpoint elements (l : list string) : list ascii :=
  match l with
  | [] => []
  | [s] => quoted s
  | s :: r => quoted s ++ ","%char :: elements r
  end.

(** [JSON.stringify(l)] *)
Definition stringify (l : list string) : string :=
  string_of_list_ascii ("["%char :: elements l ++ ["]"%char]).

(** Where the reader is in the text. *)
Inductive Position :=
| at_start
| after_open
| after_comma
| in_string (acc : list ascii)
| in_escape (acc : list ascii)
| in_unicode (acc : list ascii) (digits : list N)
| after_string
| at_end.

Definition is_whitespace (c : ascii) : bool :=
  let n := N_of_ascii c in
  ((n =? 32) || (n =? 9) || (n =? 10) || (n =? 13))%N.

(** The code unit of four hexadecimal digits, if it fits in eight bits. *)
Definition code_unit (digits : list N) : option ascii :=
  match digits with
  | [a; b; c; d] =>
      let n := (((a * 16 + b) * 16 + c) * 16 + d)%N in
      if (n <? 256)%N then Some (ascii_of_N n) else None
  | _ => None
  end.

Fixpoint read (p : Position) (seen : list string) (text : list ascii)
    : option (list string) :=
  match text with
  | [] => match p with at_end => Some (reverse seen) | _ => None end
  | c :: r =>
      match p with
      | at_start =>
          if is_whitespace c then read at_start seen r
          else if char_is c "[" then read after_open seen r
          else None
      | after_open =>
          if is_whitespace c then read after_open seen r
          else if char_is c quote then read (in_string []) seen r
          else if char_is c "]" then read at_end seen r
          else None
      | after_comma =>
          if is_whitespace c then read after_comma seen r
          else if char_is c quote then read (in_string []) seen r
          else None
      | in_string acc =>
          if char_is c quote
          then read after_string (string_of_list_ascii acc :: seen) r
          else if char_is c backslash then read (in_escape acc) seen r
          else if (N_of_ascii c <? 32)%N then None
          else read (in_string (acc ++ [c])) seen r
      | in_escape acc =>
          if char_is c quote then read (in_string (acc ++ [quote])) seen r
          else if char_is c backslash then read (in_string (acc ++ [backslash])) seen r
          else if char_is c "/" then read (in_string (acc ++ ["/"%char])) seen r
          else if char_is c "b" then read (in_string (acc ++ [ascii_of_nat 8])) seen r
          else if char_is c "f" then read (in_string (acc ++ [ascii_of_nat 12])) seen r
          else if char_is c "n" then read (in_string (acc ++ [ascii_of_nat 10])) seen r
          else if char_is c "r" then read (in_string (acc ++ [ascii_of_nat 13])) seen r
          else if char_is c "t" then read (in_string (acc ++ [ascii_of_nat 9])) seen r
          else if char_is c "u" then read (in_unicode acc []) seen r
          else None
      | in_unicode acc digits =>
          match hex_value c with
          | Some v =>
              if (length digits =? 3)%nat then
                match code_unit (digits ++ [v]) with
                | Some u => read (in_string (acc ++ [u])) seen r
                | None => None
                end
              else read (in_unicode acc (digits ++ [v])) seen r
          | None => None
          end
      | after_string =>
          if is_whitespace c then read after_string seen r
          else if char_is c "," then read after_comma seen r
          else if char_is c "]" then read at_end seen r
          else None
      | at_end => if is_whitespace c then read at_end seen r else None
      end
  end.

(** [JSON.parse(text)]: the array, or a [SyntaxError]. *)
Definition parse (text : string) : Completion (list string) :=
  match read at_start [] (list_ascii_of_string text) with
  | Some l => Normal l
  | None => Throw (ErrorObject "Unexpected token in JSON")
  end.

End JSON.

(** ** The start screen and its face library *)

(** The key of the faces in local storage. *)
Definition faces_key : string := "dad-memory-faces".

(** The state of one mounted [FaceLibrary]; [instance] tells one mount from
    the next. *)
Record FaceLibrary := {
  instance : nat;
  faces : list string;
  selectedFace : option string;
}.

Inductive StartTab := generate | upload.

(** The state hooks of [StartScreen]. *)
Record StartScreenState := {
  ss_activeTab : StartTab;
  ss_prompt : string;
  ss_selectedFace : option string;
  ss_isDraggingOver : bool;
}.

(** The [onload] closure of a [FileReader] started by [handleFileAdd]: the
    library instance whose [setFaces] it holds and the [faces] it captured. *)
Record Reader := {
  reader_instance : nat;
  reader_faces : list string;
}.

(** The start screen in its environment: the library, mounted under the
    generate tab only; the number of libraries mounted so far; the readers at
    work; and local storage. *)
Record StartWorld := {
  screen : StartScreenState;
  library : option FaceLibrary;
  mounts : nat;
  readers : list Reader;
  storage : gmap string string;
}.

(** The mount effect of [FaceLibrary]: the stored text, when there is one and
    it is not empty, is parsed; a text that cannot be read leaves no faces. *)
Definition stored_faces (ls : gmap string string) : list string :=
  match ls !! faces_key with
  | Some storedFaces =>
      if truthy storedFaces then
        match JSON.parse storedFaces with
        | Normal l => l
        | Throw _ => []
        end
      else []
  | None => []
  end.

Definition mount_library (n : nat) (ls : gmap string string) : FaceLibrary :=
  {| instance := n; faces := stored_faces ls; selectedFace := None |}.

(** [saveFacesToStorage]: what [setItem] throws (a full storage) is caught,
    and the storage stays as it was. *)
Definition saveFacesToStorage (updatedFaces : list string) (setItem_throws : bool)
    (ls : gmap string string) : gmap string string :=
  if setItem_throws then ls
  else <[faces_key := JSON.stringify updatedFaces]> ls.

(** [StartScreen] mounts: the generate tab, with a library. *)
Definition start_mount (ls : gmap string string) : StartWorld :=
  {| screen := {| ss_activeTab := generate; ss_prompt := "";
                  ss_selectedFace := None; ss_isDraggingOver := false |};
     library := Some (mount_library 0 ls); mounts := 1; readers := [];
     storage := ls |}.

Definition set_ss_selectedFace (v : option string) (s : StartScreenState)
    : StartScreenState :=
  {| ss_activeTab := ss_activeTab s; ss_prompt := ss_prompt s;
     ss_selectedFace := v; ss_isDraggingOver := ss_isDraggingOver s |}.

Definition set_ss_activeTab (v : StartTab) (s : StartScreenState) : StartScreenState :=
  {| ss_activeTab := v; ss_prompt := ss_prompt s;
     ss_selectedFace := ss_selectedFace s;
     ss_isDraggingOver := ss_isDraggingOver s |}.

Definition set_ss_prompt (v : string) (s : StartScreenState) : StartScreenState :=
  {| ss_activeTab := ss_activeTab s; ss_prompt := v;
     ss_selectedFace := ss_selectedFace s;
     ss_isDraggingOver := ss_isDraggingOver s |}.

(** A click on a tab of the start screen: leaving the generate tab unmounts
    the library, coming back mounts a new one. *)
Definition start_tab_click (tab : StartTab) (w : StartWorld) : StartWorld :=
  match ss_activeTab (screen w), tab with
  | generate, upload =>
      {| screen := set_ss_activeTab upload (screen w); library := None;
         mounts := mounts w; readers := readers w; storage := storage w |}
  | upload, generate =>
      {| screen := set_ss_activeTab generate (screen w);
         library := Some (mount_library (mounts w) (storage w));
         mounts := S (mounts w); readers := readers w; storage := storage w |}
  | _, _ => w
  end.

(** [handleFileAdd] with a file chosen: a reader starts, its [onload] closing
    over the faces of this render. *)
Definition handleFileAdd (w : StartWorld) : StartWorld :=
  match library w with
  | Some lib =>
      {| screen := screen w; library := library w; mounts := mounts w;
         readers := readers w
                    ++ [{| reader_instance := instance lib;
                           reader_faces := faces lib |}];
         storage := storage w |}
  | None => w
  end.

(** [reader.onload] of the [k]-th reader, with the data URL read: below five
    captured faces the new one is added and saved; otherwise there is only
    an alert.  [setFaces] reaches the library only while the instance that
    started the reader is still mounted. *)
Definition reader_onload (k : nat) (newFace : string) (setItem_throws : bool)
    (w : StartWorld) : StartWorld :=
  match readers w !! k with
  | Some r =>
      if (length (reader_faces r) <? 5)%nat then
        let updatedFaces := reader_faces r ++ [newFace] in
        {| screen := screen w;
           library :=
             match library w with
             | Some lib =>
                 if (instance lib =? reader_instance r)%nat
                 then Some {| instance := instance lib; faces := updatedFaces;
                              selectedFace := selectedFace lib |}
                 else Some lib
             | None => None
             end;
           mounts := mounts w; readers := delete k (readers w);
           storage := saveFacesToStorage updatedFaces setItem_throws (storage w) |}
      else
        {| screen := screen w; library := library w; mounts := mounts w;
           readers := delete k (readers w); storage := storage w |}
  | None => w
  end.

(** A click on a face: [!isLoading && handleSelectFace(face)]. *)
Definition handleSelectFace (faceDataUrl : string) (isLoading : bool)
    (w : StartWorld) : StartWorld :=
  match library w with
  | Some lib =>
      if isLoading then w
      else
        let newSelection :=
          match selectedFace lib with
          | Some selected =>
              if String.eqb selected faceDataUrl then None else Some faceDataUrl
          | None => Some faceDataUrl
          end in
        {| screen := set_ss_selectedFace newSelection (screen w);
           library := Some {| instance := instance lib; faces := faces lib;
                              selectedFace := newSelection |};
           mounts := mounts w; readers := readers w; storage := storage w |}
  | None => w
  end.

(** A click on the bin of a face: [!isLoading && handleDeleteFace(face, e)]. *)
Definition handleDeleteFace (faceToDelete : string) (isLoading setItem_throws : bool)
    (w : StartWorld) : StartWorld :=
  match library w with
  | Some lib =>
      if isLoading then w
      else
        let updatedFaces :=
          filter (fun face => String.eqb face faceToDelete = false) (faces lib) in
        let deselect :=
          match selectedFace lib with
          | Some selected => String.eqb selected faceToDelete
          | None => false
          end in
        {| screen := if deselect then set_ss_selectedFace None (screen w)
                     else screen w;
           library := Some {| instance := instance lib; faces := updatedFaces;
                              selectedFace := if deselect then None
                                              else selectedFace lib |};
           mounts := mounts w; readers := readers w;
           storage := saveFacesToStorage updatedFaces setItem_throws (storage w) |}
  | None => w
  end.

(** [handleGenerateClick]: the arguments given to [onCreateMemory], if it is
    called. *)
Definition handleGenerateClick (isLoading : bool) (s : StartScreenState)
    : option (string * string) :=
  match ss_selectedFace s with
  | Some face =>
      if truthy (trim (ss_prompt s)) && truthy face && negb isLoading
      then Some (face, ss_prompt s)
      else None
  | None => None
  end.

(** What can happen on the start screen. *)
Inductive StartEvent :=
| StartTabClick (tab : StartTab)
| StartPromptChange (value : string)
| FaceFileChosen
| FaceFileRead (k : nat) (newFace : string) (setItem_throws : bool)
| FaceClick (face : string) (isLoading : bool)
| FaceDelete (face : string) (isLoading setItem_throws : bool).

Definition start_step (w : StartWorld) (ev : StartEvent) : StartWorld :=
  match ev with
  | StartTabClick tab => start_tab_click tab w
  | StartPromptChange value =>
      {| screen := set_ss_prompt value (screen w); library := library w;
         mounts := mounts w; readers := readers w; storage := storage w |}
  | FaceFileChosen => handleFileAdd w
  | FaceFileRead k newFace setItem_throws => reader_onload k newFace setItem_throws w
  | FaceClick face isLoading => handleSelectFace face isLoading w
  | FaceDelete face isLoading setItem_throws =>
      handleDeleteFace face isLoading setItem_throws w
  end.

Definition start_run (w : StartWorld) (evs : list StartEvent) : StartWorld :=
  foldl start_step w evs.

(** The faces on show, none when the library is not mounted. *)
Definition shown_faces (w : StartWorld) : list string :=
  match library w with
  | Some lib => faces lib
  | None => []
  end.

(** The Create Memory form as [App] wires it:
    [<StartScreen onCreateMemory={handleCreateMemory} isLoading={isLoading} />]. *)
Definition create_memory_click (s : StartScreenState) (now : N) (w : World) : World :=
  match handleGenerateClick (isLoading (app w)) s with
  | Some (face, prompt) => handleCreateMemory face prompt now w
  | None => w
  end.

(** * Properties *)

(** ** Strings *)

Lemma split_comma_nonempty s : split_comma s <> [].
Proof.
  induction s as [|c r IH]; simpl; [done|].
  destruct (char_is c ","); [done|].
  destruct (split_comma r); done.
Qed.

Lemma split_comma_no_comma s : occurs "," s = false -> split_comma s = [s].
Proof.
  induction s as [|c r IH]; simpl; [done|].
  intros [Hc Hr]%orb_false_iff. rewrite Hc, (IH Hr). done.
Qed.

Lemma split_comma_first header rest :
  occurs "," header = false ->
  split_comma (header +:+ String "," rest) = header :: split_comma rest.
Proof.
  induction header as [|c r IH]; simpl; [done|].
  intros [Hc Hr]%orb_false_iff. rewrite Hc, (IH Hr). done.
Qed.

Lemma lazy_dots_no_semicolon s :
  occurs ";" s = false -> lazy_dots_then_semicolon s = None.
Proof.
  induction s as [|c r IH]; simpl; [done|].
  intros [Hc Hr]%orb_false_iff. rewrite Hc, (IH Hr).
  destruct (is_line_terminator c); done.
Qed.

Lemma match_no_semicolon s :
  occurs ";" s = false -> match_colon_semicolon s = None.
Proof.
  induction s as [|c r IH]; simpl; [done|].
  intros [Hc Hr]%orb_false_iff.
  rewrite (lazy_dots_no_semicolon r Hr), (IH Hr). destruct (char_is c ":"); done.
Qed.

Lemma match_no_colon s :
  occurs ":" s = false -> match_colon_semicolon s = None.
Proof.
  induction s as [|c r IH]; simpl; [done|].
  intros [Hc Hr]%orb_false_iff. rewrite Hc. auto.
Qed.

(** ** [dataURLtoFile] *)


(** C7.  A string that is not a well-formed data URL makes [dataURLtoFile]
    throw instead of returning a file: an [Error] with the message
    "Invalid data URL" when the string has no comma-separated payload, and
    with "Could not parse MIME type from data URL" when its header yields no
    MIME type. *)
Theorem dataURLtoFile_malformed_throws dataurl filename message :
  Malformed dataurl message ->
  dataURLtoFile dataurl filename = Throw (ErrorObject message).
Proof.
  intros [Hno | header rest -> Hheader Hmime]; unfold dataURLtoFile.
  - by rewrite split_comma_no_comma.
  - rewrite split_comma_first by done.
    destruct (split_comma rest) as [|payload ps] eqn:E.
    { by apply split_comma_nonempty in E. }
    destruct Hmime as [-> | ->]; done.
Qed.

Lemma dataURLtoFile_malformed_throws_witness :
  dataURLtoFile "data:,AAAA" "cropped-1.png"
  = Throw (ErrorObject "Could not parse MIME type from data URL")
  /\ dataURLtoFile "not a data URL" "cropped-1.png"
     = Throw (ErrorObject "Invalid data URL").
Proof.
  split.
  - apply dataURLtoFile_malformed_throws.
    apply (no_mime_type _ "data:" "AAAA"); [reflexivity | reflexivity | by left].
  - apply dataURLtoFile_malformed_throws. apply no_payload. reflexivity.
Defined.

(** A header without a colon or without a semicolon has no MIME type. *)
Lemma header_without_colon_or_semicolon header rest :
  occurs "," header = false ->
  occurs ":" header = false \/ occurs ";" header = false ->
  Malformed (header +:+ String "," rest) "Could not parse MIME type from data URL".
Proof.
  intros Hc H. apply (no_mime_type _ header rest); [done | done |].
  left. destruct H; [by apply match_no_colon | by apply match_no_semicolon].
Qed.

(** A well-formed data URL does give a file. *)
Example dataURLtoFile_png :
  dataURLtoFile "data:image/png;base64,TWFu" "edited-17.png"
  = Normal {| file_name := "edited-17.png"; file_type := "image/png";
              file_bits := [77; 97; 110]%N |}.
Proof. reflexivity. Qed.

(** The matcher takes the leftmost colon: an empty type there is an error
    even when a later colon has one. *)
Example dataURLtoFile_leftmost :
  dataURLtoFile "a:;b:c;,TWFu" "x.png"
  = Throw (ErrorObject "Could not parse MIME type from data URL").
Proof. reflexivity. Qed.

(** A payload that is not base64 fails inside [atob], later and with the
    browser's message. *)
Example dataURLtoFile_bad_payload :
  dataURLtoFile "data:image/png;base64,****" "x.png"
  = Throw (ErrorObject atob_message).
Proof. reflexivity. Qed.

(** ** The history store *)

(** Turns the boolean comparisons among the hypotheses into inequalities. *)
Ltac zbool :=
  repeat match goal with
  | H : (_ <? _) = true |- _ => apply Z.ltb_lt in H
  | H : (_ <? _) = false |- _ => apply Z.ltb_ge in H
  end.

Lemma slice_prefix {A} (h : list A) (i : Z) :
  -1 <= i -> slice h 0 (i + 1) = take (Z.to_nat (i + 1)) h.
Proof.
  intros Hi. unfold slice, relative_index.
  destruct (0 <? 0) eqn:E0; [done|].
  destruct (i + 1 <? 0) eqn:E1; zbool; [lia|].
  rewrite (Z.min_l 0) by lia. rewrite drop_0.
  destruct (Z.le_gt_cases (i + 1) (Z.of_nat (length h))) as [Hle | Hgt].
  - f_equal. lia.
  - rewrite !take_ge by lia. done.
Qed.

Lemma index_or_null_last {A} (l : list A) (a : A) :
  index_or_null (l ++ [a]) (Z.of_nat (length (l ++ [a])) - 1) = Some a.
Proof.
  unfold index_or_null. rewrite length_app. cbn [length].
  destruct (_ <? 0) eqn:E; zbool; [lia|].
  replace (Z.to_nat _) with (length l) by lia.
  by rewrite list_lookup_middle.
Qed.

(** Unfolds the handlers of [App] down to the record of the next state. *)
Ltac unfold_handlers :=
  unfold handleFileSelect, handleImageUpload, handleUndo, handleRedo,
    handleReset, handleUploadNew, handleImageClick, addImageToHistory,
    canUndo, canRedo, action_catch,
    setHistory, setHistoryIndex, setPrompt, setIsLoading, setError,
    setEditHotspot, setDisplayHotspot, setActiveTab, setCrop,
    setCompletedCrop, setApiKey, setIsApiKeyModalOpen, setPendingAction in *.

Lemma position_ok_snoc (l : list File) (a : File) :
  position_ok (l ++ [a]) (Z.of_nat (length (l ++ [a])) - 1).
Proof.
  split.
  - intros _. rewrite length_app. simpl. lia.
  - intros H. by destruct l.
Qed.

Lemma addImageToHistory_ok h i f s : history_ok (addImageToHistory h i f s).
Proof. apply position_ok_snoc. Qed.

Lemma handleUndo_ok s : history_ok s -> history_ok (handleUndo s).
Proof.
  unfold history_ok, position_ok. unfold_handlers.
  destruct (0 <? historyIndex s) eqn:E; zbool; simpl; [|done].
  intros [H1 H2]. split.
  - intros Hne. specialize (H1 Hne). lia.
  - intros He. specialize (H2 He). lia.
Qed.

Lemma handleRedo_ok s : history_ok s -> history_ok (handleRedo s).
Proof.
  unfold history_ok, position_ok. unfold_handlers.
  destruct (historyIndex s <? _) eqn:E; zbool; simpl; [|done].
  intros [H1 H2]. split.
  - intros Hne. specialize (H1 Hne). lia.
  - intros He. rewrite He in E. simpl in E. specialize (H2 He). lia.
Qed.

Lemma handleReset_ok s : history_ok s -> history_ok (handleReset s).
Proof.
  unfold history_ok, position_ok. unfold_handlers.
  destruct (0 <? _) eqn:E; zbool; simpl; [|done].
  intros _. split; [lia|]. intros He. rewrite He in E. done.
Qed.

Lemma handleImageUpload_ok file s : history_ok (handleImageUpload file s).
Proof. split; simpl; [lia | done]. Qed.

Lemma handleUploadNew_ok s : history_ok (handleUploadNew s).
Proof. split; simpl; done. Qed.

Lemma action_then_ok a url now s s' :
  history_ok s -> action_then a url now s = Normal s' -> history_ok s'.
Proof.
  intros Hs. destruct a; simpl;
    destruct (dataURLtoFile _ _) as [f|] eqn:E; simpl; try done;
    intros [= <-]; try apply position_ok_snoc.
  split; simpl; [lia | done].
Qed.

Lemma action_resume_ok a outcome now s :
  history_ok s -> history_ok (action_resume a outcome now s).
Proof.
  intros Hs. unfold action_resume.
  destruct outcome as [url|err]; simpl; [|done].
  destruct (action_then a url now s) as [s'|err] eqn:E; [|done].
  by apply (action_then_ok _ _ _ _ _ Hs) in E.
Qed.

Lemma action_call_history a key now w :
  history (app (action_call a key now w)) = history (app w)
  /\ historyIndex (app (action_call a key now w)) = historyIndex (app w).
Proof.
  destruct a; simpl; try done.
  destruct (dataURLtoFile _ _); done.
Qed.

Lemma run_or_defer_history a now w :
  history (app (run_or_defer a now w)) = history (app w)
  /\ historyIndex (app (run_or_defer a now w)) = historyIndex (app w).
Proof.
  unfold run_or_defer. destruct (apiKey (app w)) as [key|]; [|done].
  destruct (truthy key); [apply action_call_history | done].
Qed.

Lemma history_ok_same s s' :
  history s' = history s -> historyIndex s' = historyIndex s ->
  history_ok s -> history_ok s'.
Proof. unfold history_ok. by intros -> ->. Qed.

Lemma step_history_ok w ev : history_ok (app w) -> history_ok (app (step w ev)).
Proof.
  intros Hw. destruct ev; simpl;
    try (by apply history_ok_same with (s := app w)).
  - destruct files as [[|file ?]|]; simpl; try done; apply handleImageUpload_ok.
  - destruct (run_or_defer_history (MemoryAction faceDataUrl prompt0) now w).
    by apply history_ok_same with (s := app w).
  - unfold handleGenerate.
    destruct (currentImage (app w)); [|done].
    destruct (negb _); [done|].
    destruct (editHotspot (app w)); [|done].
    edestruct run_or_defer_history as [H1 H2].
    by eapply history_ok_same with (s := app w).
  - unfold handleApplyFilter.
    destruct (currentImage (app w)); [|done].
    edestruct run_or_defer_history as [H1 H2].
    by eapply history_ok_same with (s := app w).
  - unfold handleApplyAdjustment.
    destruct (currentImage (app w)); [|done].
    edestruct run_or_defer_history as [H1 H2].
    by eapply history_ok_same with (s := app w).
  - unfold handleApplyCrop.
    destruct (completedCrop (app w)); [|done].
    destruct (imgRef_current env); [|done].
    destruct (has_context2d env); [|done].
    destruct (dataURLtoFile _ _); simpl; [|done].
    apply position_ok_snoc.
  - by apply handleUndo_ok.
  - by apply handleRedo_ok.
  - by apply handleReset_ok.
  - apply handleUploadNew_ok.
  - unfold handleImageClick. destruct (activeTab (app w)); done.
  - unfold ApiKeyModal_handleSubmit, handleApiKeySubmit.
    destruct (truthy (trim key)); [|done].
    destruct (truthy (trim (trim key))); done.
  - unfold timer_fires. destruct (timers w) as [|[a k] rest]; [done|].
    simpl.
    destruct (action_call_history a k now (with_timers (fun _ => rest) w))
      as [H1 H2].
    by apply history_ok_same with (s := app w).
  - unfold service_settles. destruct (awaiting w !! k); [|done].
    simpl. by apply action_resume_ok.
Qed.

(** C1.  Whatever sequence of events reaches the component from its first
    render (uploads, appended results, undo, redo, reset, upload-new,
    created memories, and every other event), the position is within
    [0, length - 1] when the history is not empty and is -1 when it is. *)
Theorem history_position_invariant (session local : gmap string string)
    (evs : list Event) :
  let s := app (run (initialWorld session local) evs) in
  (history s <> [] -> 0 <= historyIndex s <= Z.of_nat (length (history s)) - 1)
  /\ (history s = [] -> historyIndex s = -1).
Proof.
  cbv zeta. change (history_ok (app (run (initialWorld session local) evs))).
  assert (H0 : history_ok (app (initialWorld session local))) by (split; done).
  revert H0. generalize (initialWorld session local). unfold run.
  induction evs as [|ev evs IH]; intros w Hw; simpl; [done|].
  apply IH. by apply step_history_ok.
Qed.

(** C2.  Appending artifact [a] to a history [h] at position [i] gives the
    first [i + 1] elements of [h] followed by [a]: what lay beyond the
    position is discarded, and the position becomes the index of [a], the
    new last element. *)
Theorem addImageToHistory_truncates_then_appends
    (h : list File) (i : Z) (a : File) (s : AppState) :
  -1 <= i ->
  let s' := addImageToHistory h i a s in
  history s' = take (Z.to_nat (i + 1)) h ++ [a]
  /\ historyIndex s' = Z.of_nat (length (history s')) - 1
  /\ historyIndex s' = Z.min (i + 1) (Z.of_nat (length h))
  /\ currentImage s' = Some a.
Proof.
  intros Hi s'. subst s'. unfold currentImage, addImageToHistory. simpl.
  rewrite slice_prefix by done. split; [done|]. split; [done|]. split.
  - rewrite length_app, length_take. simpl. lia.
  - apply index_or_null_last.
Qed.

Lemma addImageToHistory_truncates_then_appends_witness :
  let s' := addImageToHistory [file_of 1; file_of 2; file_of 3] 0 (file_of 4)
              (initialState None) in
  history s' = [file_of 1; file_of 4] /\ historyIndex s' = 1.
Proof.
  pose proof (addImageToHistory_truncates_then_appends
                [file_of 1; file_of 2; file_of 3] 0 (file_of 4)
                (initialState None) ltac:(lia)) as (H1 & H2 & H3 & H4).
  split; [exact H1 | exact H3].
Defined.

(** C3.  Undo lowers the position by exactly one when it is above 0 and
    changes nothing otherwise; redo raises it by exactly one when it is below
    [length - 1] and changes nothing otherwise; neither touches the sequence
    of artifacts, and on a non-empty history with its position within
    [0, length - 1] both leave it there. *)
Theorem undo_redo_move_by_one (s : AppState) :
  let len := Z.of_nat (length (history s)) in
  (0 < historyIndex s -> historyIndex (handleUndo s) = historyIndex s - 1)
  /\ (historyIndex s <= 0 -> handleUndo s = s)
  /\ (historyIndex s < len - 1 -> historyIndex (handleRedo s) = historyIndex s + 1)
  /\ (len - 1 <= historyIndex s -> handleRedo s = s)
  /\ history (handleUndo s) = history s
  /\ history (handleRedo s) = history s
  /\ (history s <> [] -> 0 <= historyIndex s <= len - 1 ->
      0 <= historyIndex (handleUndo s) <= len - 1
      /\ 0 <= historyIndex (handleRedo s) <= len - 1).
Proof.
  cbv zeta. unfold handleUndo, handleRedo, canUndo, canRedo.
  destruct (0 <? historyIndex s) eqn:Eu;
    destruct (historyIndex s <? Z.of_nat (length (history s)) - 1) eqn:Er;
    zbool; simpl; repeat split; intros; try done; lia.
Qed.

Lemma undo_redo_move_by_one_witness :
  let s := addImageToHistory [file_of 1; file_of 2; file_of 3] 0 (file_of 4)
             (initialState None) in
  historyIndex s = 1
  /\ historyIndex (handleUndo s) = 0
  /\ handleRedo s = s
  /\ handleUndo (handleUndo s) = handleUndo s.
Proof.
  cbv zeta.
  set (s := addImageToHistory _ _ _ _).
  destruct (undo_redo_move_by_one s) as (Hu & _ & _ & Hr & _).
  destruct (undo_redo_move_by_one (handleUndo s)) as (_ & Hu0 & _).
  split; [reflexivity|]. split; [apply Hu; reflexivity|].
  split; [apply Hr; vm_compute; discriminate|].
  apply Hu0. vm_compute. discriminate.
Defined.

Lemma iter_redo_after_reset (h : list File) (s : AppState) (k : nat) :
  history s = h -> historyIndex s = 0 -> (k < length h)%nat ->
  history (Nat.iter k handleRedo s) = h
  /\ historyIndex (Nat.iter k handleRedo s) = Z.of_nat k.
Proof.
  intros Hh Hi. induction k as [|k IH]; intros Hk; simpl; [done|].
  destruct IH as [IH1 IH2]; [lia|].
  revert IH1 IH2. generalize (Nat.iter k handleRedo s). intros t IH1 IH2.
  unfold handleRedo, canRedo. rewrite IH1, IH2.
  destruct (_ <? _) eqn:E; zbool; simpl; [split; [done | lia] | lia].
Qed.

(** C9.  Reset on a non-empty history moves the position to 0 and leaves the
    sequence of artifacts as it was, the part beyond the old position
    included: redo applied [k] times afterwards shows the [k]-th artifact,
    for every [k] below the length. *)
Theorem reset_keeps_forward_history (s : AppState) :
  history s <> [] ->
  history (handleReset s) = history s
  /\ historyIndex (handleReset s) = 0
  /\ forall k : nat, (k < length (history s))%nat ->
       history (Nat.iter k handleRedo (handleReset s)) = history s
       /\ historyIndex (Nat.iter k handleRedo (handleReset s)) = Z.of_nat k
       /\ currentImage (Nat.iter k handleRedo (handleReset s)) = history s !! k.
Proof.
  intros Hne.
  assert (Hr : history (handleReset s) = history s
               /\ historyIndex (handleReset s) = 0).
  { unfold handleReset. destruct (0 <? _) eqn:E; zbool; simpl; [done|].
    destruct (history s); [done | simpl in E; lia]. }
  destruct Hr as [Hr1 Hr2]. split; [done|]. split; [done|].
  intros k Hk.
  destruct (iter_redo_after_reset (history s) (handleReset s) k Hr1 Hr2 Hk)
    as [H1 H2].
  split; [done|]. split; [done|].
  unfold currentImage, index_or_null. rewrite H1, H2.
  destruct (_ <? 0) eqn:E; zbool; [lia|]. by rewrite Nat2Z.id.
Qed.

Lemma reset_keeps_forward_history_witness :
  let s := addImageToHistory [file_of 1; file_of 2; file_of 3] 2 (file_of 4)
             (initialState None) in
  historyIndex s = 3
  /\ historyIndex (handleReset s) = 0
  /\ currentImage (Nat.iter 3 handleRedo (handleReset s)) = Some (file_of 4).
Proof.
  cbv zeta. set (s := addImageToHistory _ _ _ _).
  assert (Hne : history s <> []) by (vm_compute; discriminate).
  destruct (reset_keeps_forward_history s Hne) as (_ & H0 & Hk).
  destruct (Hk 3%nat ltac:(vm_compute; lia)) as (_ & _ & Hc).
  split; [reflexivity|]. split; [exact H0|]. exact Hc.
Defined.

(** C10.  An upload, and a memory that was created successfully, replace the
    history: whatever it held before, afterwards it is the one-element
    sequence of the new artifact, at position 0. *)
Theorem upload_and_memory_replace_history (w : World) :
  (forall (file : File) (others : list File),
     let s' := app (step w (FileSelect (Some (file :: others)))) in
     history s' = [file] /\ historyIndex s' = 0)
  /\ (forall (k : nat) (faceDataUrl prompt url : string) (now : N) (f : File),
        awaiting w !! k = Some (MemoryAction faceDataUrl prompt) ->
        dataURLtoFile url (stamped "memory" now) = Normal f ->
        let s' := app (step w (ServiceSettles k (Normal url) now)) in
        history s' = [f] /\ historyIndex s' = 0).
Proof.
  split.
  - intros file others. simpl. done.
  - intros k face p url now f Hk Hf. simpl.
    unfold service_settles. rewrite Hk. simpl.
    unfold action_resume. simpl. rewrite Hf. simpl. done.
Qed.

Lemma upload_and_memory_replace_history_witness :
  let w := {| app := addImageToHistory [file_of 1; file_of 2] 1 (file_of 3)
                       (initialState (Some "key"));
              sessionStorage := ∅; localStorage := ∅; timers := [];
              awaiting := [MemoryAction "data:image/png;base64,AAAA" "at sea"];
              serviceCalls := [] |} in
  history (app w) = [file_of 1; file_of 2; file_of 3]
  /\ history (app (step w (FileSelect (Some [file_of 9])))) = [file_of 9]
  /\ history (app (step w (ServiceSettles 0 (Normal "data:image/png;base64,TWFu") 5)))
     = [{| file_name := "memory-5.png"; file_type := "image/png";
           file_bits := [77; 97; 110]%N |}].
Proof.
  cbv zeta. set (w := Build_World _ _ _ _ _ _).
  destruct (upload_and_memory_replace_history w) as [Hup Hmem].
  split; [reflexivity|]. split.
  - apply (Hup (file_of 9) []).
  - refine (proj1 (Hmem 0%nat "data:image/png;base64,AAAA" "at sea"
                     "data:image/png;base64,TWFu" 5%N _ _ _));
      reflexivity.
Defined.

(** ** The hotspot selector *)

Lemma Math_round_bounds (q : Q) :
  (q - (1 # 2) < inject_Z (Math_round q) /\ inject_Z (Math_round q) <= q + (1 # 2))%Q.
Proof.
  unfold Math_round. split.
  - pose proof (Qlt_floor (q + (1 # 2))) as H.
    rewrite inject_Z_plus in H. change (inject_Z 1) with 1%Q in H. lra.
  - apply Qfloor_le.
Qed.


Lemma Math_round_comp (q q' : Q) : (q == q')%Q -> Math_round q = Math_round q'.
Proof. intros H. unfold Math_round. by rewrite H. Qed.




(** Outside the retouch tab a click computes nothing. *)
Lemma handleImageClick_other_tab (e : ClickEvent) (s : AppState) :
  activeTab s <> retouch -> handleImageClick e s = s.
Proof. unfold handleImageClick. by destruct (activeTab s). Qed.




(** Each application of the map rounds once: with ratio 1, two halves map to
    1 each and their sum maps to 1, a discrepancy of a whole unit. *)
Example rounding_accumulates :
  native_coordinate (1 # 2) 1 1 = 1
  /\ native_coordinate ((1 # 2) + (1 # 2)) 1 1 = 1.
Proof. split; reflexivity. Qed.

(** ** The crop renderer *)

(** Without a completed selection (or without the image element)
    [handleApplyCrop] shows its message and the history stays as it is. *)
Lemma handleApplyCrop_no_selection (env : CropEnv) (s : AppState) :
  completedCrop s = None \/ imgRef_current env = None ->
  handleApplyCrop env s = Normal (setError (Some "Please select an area to crop.") s).
Proof.
  unfold handleApplyCrop. intros [-> | ->]; [done|].
  by destruct (completedCrop s).
Qed.

(** A selection of zero width disables the Apply Crop button, and a click on
    it changes nothing. *)
Lemma zero_width_disables_apply (env : CropEnv) (s : AppState) (c : PixelCrop) :
  completedCrop s = Some c -> (pc_width c == 0)%Q ->
  CropPanel_apply_disabled s = true /\ CropPanel_apply_click env s = Normal s.
Proof.
  intros Hc Hw.
  assert (H : CropPanel_apply_disabled s = true).
  { unfold CropPanel_apply_disabled, isCropping. rewrite Hc.
    apply Qeq_bool_iff in Hw. rewrite Hw. simpl. apply orb_true_r. }
  split; [done|]. unfold CropPanel_apply_click. by rewrite H.
Qed.

(** C4, at a selection 50 wide and 0 high.  The Apply Crop button is enabled;
    the click sets no error message, whatever the canvas returns; with the
    data URL of an empty bitmap the handler ends in an exception that nothing
    catches; and a canvas that did return an image would have it appended. *)
Theorem zero_height_crop_not_rejected
    (s : AppState) (image : ImageElement) (dpr : Q) (now : N) :
  let s0 := s |> setIsLoading false
              |> setCompletedCrop
                   (Some {| pc_x := 10; pc_y := 20; pc_width := 50; pc_height := 0 |}) in
  let env := fun url : string =>
    {| imgRef_current := Some image; has_context2d := true;
       devicePixelRatio := dpr; canvas_toDataURL := url; crop_now := now |} in
  CropPanel_apply_disabled s0 = false
  /\ (forall url : string,
        error (settled (CropPanel_apply_click (env url) s0) s0) = error s)
  /\ CropPanel_apply_click (env "data:,") s0
     = Throw (ErrorObject "Could not parse MIME type from data URL")
  /\ exists f : File,
       history (settled (CropPanel_apply_click (env "data:image/png;base64,TWFu") s0) s0)
       = slice (history s) 0 (historyIndex s + 1) ++ [f].
Proof.
  cbv zeta. split; [reflexivity|]. split; [|split; [reflexivity|]].
  - intros url. unfold CropPanel_apply_click. simpl.
    unfold handleApplyCrop. simpl.
    destruct (dataURLtoFile url _); done.
  - eexists. reflexivity.
Qed.

(** ** The credential gate *)

Lemma trim_end_idemp s : trim_end (trim_end s) = trim_end s.
Proof.
  induction s as [|c r IH]; simpl; [done|].
  destruct (trim_end r) as [|c' r'] eqn:E.
  - destruct (is_trim_space c) eqn:Ec; simpl; [done|]. by rewrite Ec.
  - simpl. simpl in IH. by rewrite IH.
Qed.

Lemma trim_start_head s :
  match trim_start s with
  | EmptyString => True
  | String c _ => is_trim_space c = false
  end.
Proof.
  induction s as [|c r IH]; simpl; [done|].
  destruct (is_trim_space c) eqn:E; [done|]. simpl. done.
Qed.

Lemma trim_start_fixed c r :
  is_trim_space c = false -> trim_start (String c r) = String c r.
Proof. intros H. simpl. by rewrite H. Qed.

Lemma trim_trim s : trim (trim s) = trim s.
Proof.
  unfold trim. pose proof (trim_start_head s) as H.
  destruct (trim_start s) as [|c r]; [done|].
  assert (Hhead : exists r', trim_end (String c r) = String c r').
  { simpl. destruct (trim_end r); [rewrite H|]; eauto. }
  destruct Hhead as [r' Hr']. rewrite Hr', trim_start_fixed by done.
  rewrite <- Hr'. apply trim_end_idemp.
Qed.

Lemma truthy_nonempty s : truthy s = true <-> s <> EmptyString.
Proof. by destruct s. Qed.
















Lemma run_snoc w evs ev : run w (evs ++ [ev]) = step (run w evs) ev.
Proof. unfold run. by rewrite foldl_app. Qed.





(** ** Two sessions, run through the event loop *)

(** Upload, filter, undo, adjust: the filtered image, which lay beyond the
    position when the adjustment was started, is gone. *)
Example undo_then_append_discards_redo_tail :
  let evs :=
    [FileSelect (Some [file_of 1]);
     ApplyFilter "sepia" 2;
     ServiceSettles 0 (Normal "data:image/png;base64,TWFu") 3;
     Undo;
     ApplyAdjustment "warmer" 4;
     ServiceSettles 0 (Normal "data:image/png;base64,TWE=") 5] in
  let s := app (run (initialWorld {["user-api-key" := "k"]} ∅) evs) in
  history s
  = [file_of 1;
     {| file_name := "adjusted-5.png"; file_type := "image/png";
        file_bits := [77; 97]%N |}]
  /\ historyIndex s = 1.
Proof. vm_compute. split; reflexivity. Qed.

(** An action appends to the history of the render that started it: an undo
    made while the service is at work does not change what is kept. *)
Example undo_while_waiting :
  let evs :=
    [FileSelect (Some [file_of 1]);
     ApplyFilter "sepia" 2;
     ServiceSettles 0 (Normal "data:image/png;base64,TWFu") 3;
     ApplyAdjustment "warmer" 4;
     Undo;
     ServiceSettles 0 (Normal "data:image/png;base64,TWE=") 5] in
  let s := app (run (initialWorld {["user-api-key" := "k"]} ∅) evs) in
  length (history s) = 3%nat /\ historyIndex s = 2.
Proof. vm_compute. split; reflexivity. Qed.

(** * Further properties of the code *)

(** ** [dataURLtoFile]: what a returned file holds *)

Local Open Scope N_scope.









Local Close Scope N_scope.





(** X2.  Only the text between the first and the second comma is the
    payload: whatever follows a second comma is ignored. *)
Theorem dataURLtoFile_ignores_after_second_comma
    (header payload extra filename : string) :
  occurs "," header = false -> occurs "," payload = false ->
  dataURLtoFile (header +:+ String "," (payload +:+ String "," extra)) filename
  = dataURLtoFile (header +:+ String "," payload) filename.
Proof.
  intros Hh Hp. unfold dataURLtoFile.
  rewrite !split_comma_first by done.
  rewrite (split_comma_no_comma payload) by done.
  destruct (split_comma extra) eqn:E; [by apply split_comma_nonempty in E|].
  done.
Qed.

Lemma dataURLtoFile_ignores_after_second_comma_witness :
  dataURLtoFile "data:image/png;base64,TWFu,****" "x.png"
  = dataURLtoFile "data:image/png;base64,TWFu" "x.png".
Proof.
  apply (dataURLtoFile_ignores_after_second_comma
           "data:image/png;base64" "TWFu" "****" "x.png"); reflexivity.
Defined.

(** ** The history store: how the operations compose *)

(** X3.  Undo and redo are inverse to each other where both apply: from a
    position above 0, redo after undo comes back to the same artifact, and
    so does undo after redo from a position below the last. *)
Theorem undo_redo_round_trip (s : AppState) :
  let len := Z.of_nat (length (history s)) in
  (0 < historyIndex s <= len - 1 ->
   history (handleRedo (handleUndo s)) = history s
   /\ historyIndex (handleRedo (handleUndo s)) = historyIndex s
   /\ currentImage (handleRedo (handleUndo s)) = currentImage s)
  /\ (0 <= historyIndex s < len - 1 ->
      history (handleUndo (handleRedo s)) = history s
      /\ historyIndex (handleUndo (handleRedo s)) = historyIndex s
      /\ currentImage (handleUndo (handleRedo s)) = currentImage s).
Proof.
  cbv zeta. split; intros Hi.
  - assert (Hu : history (handleUndo s) = history s
                 /\ historyIndex (handleUndo s) = historyIndex s - 1).
    { unfold handleUndo, canUndo. destruct (0 <? _) eqn:E; zbool; [done | lia]. }
    destruct Hu as [Hu1 Hu2].
    assert (Hr : history (handleRedo (handleUndo s)) = history s
                 /\ historyIndex (handleRedo (handleUndo s)) = historyIndex s).
    { unfold handleRedo, canRedo. rewrite Hu1, Hu2.
      destruct (_ <? _) eqn:E; zbool; simpl; [split; [done | lia] | lia]. }
    destruct Hr as [Hr1 Hr2]. unfold currentImage. by rewrite Hr1, Hr2.
  - assert (Hr : history (handleRedo s) = history s
                 /\ historyIndex (handleRedo s) = historyIndex s + 1).
    { unfold handleRedo, canRedo. destruct (_ <? _) eqn:E; zbool; [done | lia]. }
    destruct Hr as [Hr1 Hr2].
    assert (Hu : history (handleUndo (handleRedo s)) = history s
                 /\ historyIndex (handleUndo (handleRedo s)) = historyIndex s).
    { unfold handleUndo, canUndo. rewrite Hr2.
      destruct (0 <? _) eqn:E; zbool; simpl; [split; [done | lia] | lia]. }
    destruct Hu as [Hu1 Hu2]. unfold currentImage. by rewrite Hu1, Hu2.
Qed.

Lemma undo_redo_round_trip_witness :
  let s := addImageToHistory [file_of 1; file_of 2; file_of 3] 1 (file_of 4)
             (initialState None) in
  currentImage (handleRedo (handleUndo s)) = Some (file_of 4)
  /\ currentImage (handleUndo (handleRedo (handleUndo s))) = Some (file_of 2).
Proof.
  cbv zeta. set (s := addImageToHistory _ _ _ _).
  destruct (undo_redo_round_trip s) as [H1 _].
  destruct (undo_redo_round_trip (handleUndo s)) as [_ H2].
  split.
  - destruct H1 as (_ & _ & ->); [vm_compute; split; [reflexivity | discriminate]|].
    reflexivity.
  - destruct H2 as (_ & _ & ->); [vm_compute; split; [discriminate | reflexivity]|].
    reflexivity.
Defined.

Lemma iter_undo (s : AppState) (k : nat) :
  0 <= historyIndex s ->
  history (Nat.iter k handleUndo s) = history s
  /\ historyIndex (Nat.iter k handleUndo s) = Z.max (historyIndex s - Z.of_nat k) 0.
Proof.
  intros Hi. induction k as [|k [IH1 IH2]]; simpl; [split; [done | lia]|].
  revert IH1 IH2. generalize (Nat.iter k handleUndo s). intros t IH1 IH2.
  unfold handleUndo, canUndo.
  destruct (0 <? historyIndex t) eqn:E; zbool; simpl; split; try done; lia.
Qed.

(** X4.  Reset is undo all the way: as many undos as the position counts
    lead to the same history and position as reset, and show the original
    image. *)
Theorem reset_is_undo_to_the_start (s : AppState) :
  history s <> [] -> 0 <= historyIndex s ->
  let u := Nat.iter (Z.to_nat (historyIndex s)) handleUndo s in
  history u = history (handleReset s)
  /\ historyIndex u = historyIndex (handleReset s)
  /\ currentImage u = originalImage s.
Proof.
  intros Hne Hi u. subst u.
  destruct (iter_undo s (Z.to_nat (historyIndex s)) Hi) as [H1 H2].
  assert (Hr : history (handleReset s) = history s
               /\ historyIndex (handleReset s) = 0).
  { unfold handleReset. destruct (0 <? _) eqn:E; zbool; simpl; [done|].
    destruct (history s); [done | simpl in E; lia]. }
  destruct Hr as [Hr1 Hr2]. rewrite Hr1, Hr2, H1, H2.
  split; [done|]. split; [lia|].
  unfold currentImage, originalImage. rewrite H1, H2. f_equal. lia.
Qed.

Lemma reset_is_undo_to_the_start_witness :
  let s := addImageToHistory [file_of 1; file_of 2; file_of 3] 2 (file_of 4)
             (initialState None) in
  currentImage (Nat.iter 3 handleUndo s) = Some (file_of 1)
  /\ historyIndex (Nat.iter 3 handleUndo s) = historyIndex (handleReset s).
Proof.
  cbv zeta. set (s := addImageToHistory _ _ _ _).
  destruct (reset_is_undo_to_the_start s) as (_ & H2 & H3);
    [vm_compute; discriminate | vm_compute; discriminate |].
  split; [exact H3 | exact H2].
Defined.

(** X5.  An edit of the current image keeps every artifact up to the current
    one, in its place; in particular the original image, the baseline of the
    comparison, stays what it was. *)
Theorem append_keeps_the_past (s : AppState) (f : File) :
  history s <> [] -> 0 <= historyIndex s <= Z.of_nat (length (history s)) - 1 ->
  let s' := addImageToHistory (history s) (historyIndex s) f s in
  (forall j : Z, 0 <= j <= historyIndex s ->
     index_or_null (history s') j = index_or_null (history s) j)
  /\ originalImage s' = originalImage s
  /\ historyIndex s' = historyIndex s + 1.
Proof.
  intros Hne Hi s'.
  assert (Hh : history s' = take (Z.to_nat (historyIndex s + 1)) (history s) ++ [f]).
  { subst s'. unfold addImageToHistory. simpl. by rewrite slice_prefix by lia. }
  assert (Hpast : forall j : Z, 0 <= j <= historyIndex s ->
            index_or_null (history s') j = index_or_null (history s) j).
  { intros j Hj. unfold index_or_null. rewrite Hh.
    destruct (j <? 0) eqn:E; zbool; [lia|].
    rewrite lookup_app_l by (rewrite length_take; lia).
    apply lookup_take_lt. lia. }
  split; [done|]. split; [apply Hpast; lia|].
  subst s'. unfold addImageToHistory. simpl. rewrite slice_prefix by lia.
  rewrite length_app, length_take. simpl. lia.
Qed.

Lemma append_keeps_the_past_witness :
  let s := addImageToHistory [file_of 1; file_of 2; file_of 3] 0 (file_of 4)
             (initialState None) in
  originalImage (addImageToHistory (history s) (historyIndex s) (file_of 5) s)
  = Some (file_of 1).
Proof.
  cbv zeta. set (s := addImageToHistory _ _ _ _).
  destruct (append_keeps_the_past s (file_of 5)) as (_ & H & _);
    [vm_compute; discriminate | vm_compute; split; discriminate |].
  exact H.
Defined.

Lemma action_resume_history a outcome now s :
  history (action_resume a outcome now s) = history s
  /\ historyIndex (action_resume a outcome now s) = historyIndex s
  \/ history (action_resume a outcome now s) <> []
     /\ historyIndex (action_resume a outcome now s)
        = Z.of_nat (length (history (action_resume a outcome now s))) - 1.
Proof.
  unfold action_resume. destruct outcome as [url|err]; simpl; [|by left].
  destruct a; simpl; destruct (dataURLtoFile _ _) as [f|]; simpl;
    try (by left); right; split; try done;
    by destruct (slice _ _ _).
Qed.

(** X6.  Whatever event changes the sequence of artifacts leaves the position
    on its last element, or at -1 if it emptied the sequence: right after a
    change there is nothing to redo. *)
Theorem history_change_moves_to_end (w : World) (ev : Event) :
  history (app (step w ev)) <> history (app w) ->
  let s' := app (step w ev) in
  historyIndex s' = Z.of_nat (length (history s')) - 1
  /\ canRedo s' = false.
Proof.
  intros Hch. cbv zeta.
  assert (H : historyIndex (app (step w ev))
              = Z.of_nat (length (history (app (step w ev)))) - 1).
  { destruct ev; simpl in *; try done.
    - destruct files as [[|file ?]|]; simpl in *; done.
    - by destruct (run_or_defer_history (MemoryAction faceDataUrl prompt0) now w).
    - unfold handleGenerate in *.
      destruct (currentImage (app w)); [|done].
      destruct (negb _); [done|].
      destruct (editHotspot (app w)); [|done].
      by edestruct run_or_defer_history as [H1 H2]; rewrite H1 in Hch.
    - unfold handleApplyFilter in *.
      destruct (currentImage (app w)); [|done].
      by edestruct run_or_defer_history as [H1 H2]; rewrite H1 in Hch.
    - unfold handleApplyAdjustment in *.
      destruct (currentImage (app w)); [|done].
      by edestruct run_or_defer_history as [H1 H2]; rewrite H1 in Hch.
    - unfold handleApplyCrop in *.
      destruct (completedCrop (app w)); [|done].
      destruct (imgRef_current env); [|done].
      destruct (has_context2d env); [|done].
      destruct (dataURLtoFile _ _); simpl in *; done.
    - unfold handleUndo in *. by destruct (canUndo _).
    - unfold handleRedo in *. by destruct (canRedo _).
    - unfold handleReset in *. by destruct (0 <? _).
    - unfold handleImageClick in *. by destruct (activeTab _).
    - unfold ApiKeyModal_handleSubmit, handleApiKeySubmit in *.
      destruct (truthy (trim key)); [|done].
      destruct (truthy (trim (trim key))); done.
    - unfold timer_fires in *. destruct (timers w) as [|[a k] rest]; [done|].
      simpl in *.
      destruct (action_call_history a k now (with_timers (fun _ => rest) w))
        as [H1 H2]. by rewrite H1 in Hch.
    - unfold service_settles in *. destruct (awaiting w !! k); [|done].
      simpl in *.
      destruct (action_resume_history a outcome now (app w)) as [[H1 _] | [_ H2]];
        done. }
  split; [done|]. unfold canRedo. rewrite H.
  destruct (_ <? _) eqn:E; zbool; [lia | done].
Qed.

Lemma history_change_moves_to_end_witness :
  let w := {| app := handleUndo (addImageToHistory [file_of 1; file_of 2] 1
                                   (file_of 3) (initialState (Some "key")));
              sessionStorage := ∅; localStorage := ∅; timers := [];
              awaiting := [FilterAction (file_of 2) "sepia" [file_of 1; file_of 2] 1];
              serviceCalls := [] |} in
  historyIndex (app w) = 1
  /\ canRedo (app w) = true
  /\ canRedo (app (step w (ServiceSettles 0 (Normal "data:image/png;base64,TWFu") 5)))
     = false.
Proof.
  cbv zeta. set (w := Build_World _ _ _ _ _ _).
  split; [reflexivity|]. split; [reflexivity|].
  refine (proj2 (history_change_moves_to_end w
                   (ServiceSettles 0 (Normal "data:image/png;base64,TWFu") 5) _)).
  vm_compute. discriminate.
Defined.

Lemma run_history_ok session local evs :
  history_ok (app (run (initialWorld session local) evs)).
Proof.
  induction evs as [|ev evs IH] using rev_ind; [split; done|].
  rewrite run_snoc. by apply step_history_ok.
Qed.

(** X7.  In every world the component can reach, there is a current image
    and an original image exactly when the history is not empty; the start
    screen, shown when there is no current image, is the screen of the empty
    history. *)
Theorem reachable_current_image (session local : gmap string string)
    (evs : list Event) :
  let s := app (run (initialWorld session local) evs) in
  (currentImage s = None <-> history s = [])
  /\ (originalImage s = None <-> history s = [])
  /\ (history s <> [] ->
      currentImage s = history s !! Z.to_nat (historyIndex s)
      /\ is_Some (currentImage s)).
Proof.
  cbv zeta. destruct (run_history_ok session local evs) as [H1 H2].
  set (s := app (run (initialWorld session local) evs)) in *.
  assert (Hcur : history s <> [] ->
            currentImage s = history s !! Z.to_nat (historyIndex s)
            /\ is_Some (currentImage s)).
  { intros Hne. specialize (H1 Hne). unfold currentImage, index_or_null.
    destruct (_ <? 0) eqn:E; zbool; [lia|]. split; [done|].
    apply lookup_lt_is_Some. lia. }
  split; [|split; [|done]].
  - split.
    + intros Hnone. destruct (history s) eqn:Eh; [done|].
      destruct Hcur as [_ [x Hx]]; [done|]. congruence.
    + intros He. unfold currentImage, index_or_null. rewrite He.
      destruct (_ <? 0); [done|]. apply lookup_nil.
  - unfold originalImage, index_or_null. simpl. by destruct (history s).
Qed.

(** X8.  The result of an edit goes to the history its action captured, not
    to the current one: it is appended to the captured prefix whatever has
    happened to the history while the service was at work. *)
Theorem result_goes_to_captured_history
    (w : World) (k : nat) (a : Action) (h : list File) (i : Z)
    (url : string) (now : N) (f : File) :
  awaiting w !! k = Some a ->
  captured a = Some (h, i) ->
  dataURLtoFile url (stamped (result_prefix a) now) = Normal f ->
  let s' := app (step w (ServiceSettles k (Normal url) now)) in
  history s' = slice h 0 (i + 1) ++ [f]
  /\ currentImage s' = Some f.
Proof.
  intros Hk Hc Hf. cbv zeta. simpl. unfold service_settles. rewrite Hk. simpl.
  unfold action_resume. simpl.
  destruct a; simpl in *; try done; injection Hc as -> ->; rewrite Hf; simpl;
    (split; [done | apply index_or_null_last]).
Qed.

Lemma result_goes_to_captured_history_witness :
  let evs :=
    [FileSelect (Some [file_of 1]);
     ApplyFilter "sepia" 2;
     UploadNew;
     FileSelect (Some [file_of 7]);
     ServiceSettles 0 (Normal "data:image/png;base64,TWFu") 3] in
  let w := run (initialWorld {["user-api-key" := "k"]} ∅) evs in
  history (app w)
  = [file_of 1;
     {| file_name := "filtered-3.png"; file_type := "image/png";
        file_bits := [77; 97; 110]%N |}].
Proof.
  cbv zeta.
  set (w := run (initialWorld {["user-api-key" := "k"]} ∅)
              [FileSelect (Some [file_of 1]); ApplyFilter "sepia" 2; UploadNew;
               FileSelect (Some [file_of 7])]).
  refine (proj1 (result_goes_to_captured_history w 0
                   (FilterAction (file_of 1) "sepia" [file_of 1] 0)
                   [file_of 1] 0 "data:image/png;base64,TWFu" 3 _ _ _ _));
    reflexivity.
Defined.

(** X9.  Without a current image the three edit handlers are refused with a
    message: nothing reaches the service and nothing is deferred, with or
    without a key. *)
Theorem no_image_no_edit (w : World) (ev : Event) :
  edit_event ev = true -> currentImage (app w) = None ->
  refused w (step w ev)
  /\ serviceCalls (step w ev) = serviceCalls w
  /\ awaiting (step w ev) = awaiting w
  /\ pendingAction (app (step w ev)) = pendingAction (app w)
  /\ is_Some (error (app (step w ev))).
Proof.
  intros Hev Hnone.
  assert (Hr : exists m, step w ev = with_app (setError (Some m)) w).
  { destruct ev; try done; simpl;
      unfold handleGenerate, handleApplyFilter, handleApplyAdjustment;
      rewrite Hnone; eauto. }
  destruct Hr as [m ->]. split; [by exists m|]. simpl. eauto.
Qed.

Lemma no_image_no_edit_witness :
  error (app (step (initialWorld {["user-api-key" := "k"]} ∅) (ApplyFilter "sepia" 1)))
  = Some "No image loaded to apply a filter to.".
Proof.
  destruct (no_image_no_edit (initialWorld {["user-api-key" := "k"]} ∅)
              (ApplyFilter "sepia" 1) eq_refl eq_refl) as ([m Hm] & _).
  rewrite Hm. vm_compute in Hm.
  injection Hm as Hm. rewrite <- Hm. reflexivity.
Defined.

(** ** Actions: failures, deferral and the key *)

(** X10.  A failed action changes nothing but the message and the loading
    flag: when the service rejects, or resolves with something that
    [dataURLtoFile] cannot turn into a file, the state afterwards is the
    state before with the error set to the action's prefix followed by the
    message of what was thrown, and with [isLoading] false; history and
    position are as before. *)
Theorem action_failure_is_reported
    (w : World) (k : nat) (a : Action) (outcome : Completion string) (now : N)
    (err : Thrown) :
  awaiting w !! k = Some a ->
  outcome = Throw err
  \/ (exists url, outcome = Normal url
                  /\ dataURLtoFile url (stamped (result_prefix a) now) = Throw err) ->
  let w' := step w (ServiceSettles k outcome now) in
  app w' = (app w |> setError (Some (failure_prefix a +:+ errorMessage err))
                  |> setIsLoading false)
  /\ history (app w') = history (app w)
  /\ historyIndex (app w') = historyIndex (app w)
  /\ serviceCalls w' = serviceCalls w
  /\ awaiting w' = delete k (awaiting w).
Proof.
  intros Hk Hfail. cbv zeta. simpl. unfold service_settles. rewrite Hk. simpl.
  assert (H : action_resume a outcome now (app w)
              = action_catch a err (app w)).
  { unfold action_resume. destruct Hfail as [-> | (url & -> & Hu)]; [done|].
    simpl. destruct a; simpl in *; by rewrite Hu. }
  rewrite H. done.
Qed.

Lemma action_failure_is_reported_witness :
  let w := {| app := addImageToHistory [file_of 1] 0 (file_of 2)
                       (initialState (Some "key"));
              sessionStorage := ∅; localStorage := ∅; timers := [];
              awaiting := [AdjustAction (file_of 2) "warmer" [file_of 1; file_of 2] 1];
              serviceCalls := [] |} in
  error (app (step w (ServiceSettles 0 (Throw OtherValue) 5)))
  = Some "Failed to apply the adjustment. An unknown error occurred."
  /\ error (app (step w (ServiceSettles 0 (Normal "no image") 5)))
     = Some "Failed to apply the adjustment. Invalid data URL".
Proof.
  cbv zeta. set (w := Build_World _ _ _ _ _ _). split.
  - destruct (action_failure_is_reported w 0
                (AdjustAction (file_of 2) "warmer" [file_of 1; file_of 2] 1)
                (Throw OtherValue) 5 OtherValue eq_refl (or_introl eq_refl))
      as [-> _].
    reflexivity.
  - destruct (action_failure_is_reported w 0
                (AdjustAction (file_of 2) "warmer" [file_of 1; file_of 2] 1)
                (Normal "no image") 5 (ErrorObject "Invalid data URL") eq_refl
                (or_intror (ex_intro _ "no image" (conj eq_refl eq_refl))))
      as [-> _].
    reflexivity.
Defined.

(** X11.  A memory whose face image is not a well-formed data URL never
    reaches the service, even with a key: the failure is reported at once
    and nothing is left waiting. *)
Theorem memory_with_bad_face_never_calls
    (w : World) (key faceDataUrl prompt : string) (now : N) (err : Thrown) :
  apiKey (app w) = Some key -> key <> EmptyString ->
  dataURLtoFile faceDataUrl (stamped "face" now) = Throw err ->
  let w' := step w (CreateMemory faceDataUrl prompt now) in
  serviceCalls w' = serviceCalls w
  /\ awaiting w' = awaiting w
  /\ error (app w') = Some ("Failed to create memory. " +:+ errorMessage err)
  /\ isLoading (app w') = false
  /\ history (app w') = history (app w).
Proof.
  intros Hk Hne Hf. cbv zeta. simpl.
  unfold handleCreateMemory, run_or_defer. rewrite Hk.
  apply truthy_nonempty in Hne. rewrite Hne. simpl. rewrite Hf. done.
Qed.

Lemma memory_with_bad_face_never_calls_witness :
  let w := initialWorld {["user-api-key" := "k"]} ∅ in
  let w' := step w (CreateMemory "data:,AAAA" "at sea" 9) in
  serviceCalls w' = []
  /\ error (app w')
     = Some "Failed to create memory. Could not parse MIME type from data URL".
Proof.
  cbv zeta. set (w := initialWorld _ _).
  destruct (memory_with_bad_face_never_calls w "k" "data:,AAAA" "at sea" 9
              (ErrorObject "Could not parse MIME type from data URL")
              ltac:(vm_compute; reflexivity) ltac:(discriminate) eq_refl)
    as (H1 & _ & H3 & _).
  split; [exact H1 | exact H3].
Defined.



(** X13.  Closing the modal gives the deferred action up: a key submitted
    afterwards is kept as the credential but sets no timer and invokes
    nothing. *)
Theorem closing_the_modal_cancels (w : World) (key : string) :
  let w' := run w [ApiKeyClose; ApiKeySubmit key] in
  timers w' = timers w
  /\ serviceCalls w' = serviceCalls w
  /\ pendingAction (app w') = None
  /\ isApiKeyModalOpen (app w') = false
  /\ (trim key <> EmptyString -> apiKey (app w') = Some (trim key)).
Proof.
  cbv zeta. unfold run. simpl.
  unfold ApiKeyModal_handleSubmit, handleApiKeySubmit. rewrite trim_trim.
  destruct (truthy (trim key)) eqn:E; simpl.
  - repeat split; done.
  - repeat split; try done. intros H. apply truthy_nonempty in H. congruence.
Qed.

Lemma closing_the_modal_cancels_witness :
  let w := run (initialWorld ∅ ∅)
             [FileSelect (Some [file_of 1]); ApplyFilter "sepia" 2] in
  is_Some (pendingAction (app w))
  /\ apiKey (app (run w [ApiKeyClose; ApiKeySubmit "k-1"])) = Some "k-1"
  /\ timers (run w [ApiKeyClose; ApiKeySubmit "k-1"]) = [].
Proof.
  cbv zeta.
  set (w := run (initialWorld ∅ ∅)
              [FileSelect (Some [file_of 1]); ApplyFilter "sepia" 2]).
  destruct (closing_the_modal_cancels w "k-1") as (H1 & _ & _ & _ & H5).
  split; [by eexists|]. split; [apply H5; vm_compute; discriminate | exact H1].
Defined.

(** X14.  What the modal submits depends on the key only up to the white
    space around it: a blank key changes nothing at all; any other key is
    stored trimmed, and a first render made from the session storage left
    behind holds that key again. *)
Theorem key_is_kept_trimmed (w : World) (key : string) :
  ApiKeyModal_handleSubmit key w = ApiKeyModal_handleSubmit (trim key) w
  /\ (trim key = EmptyString -> ApiKeyModal_handleSubmit key w = w)
  /\ (trim key <> EmptyString ->
      let w' := ApiKeyModal_handleSubmit key w in
      credential_held (app w') = true
      /\ forall local,
           apiKey (app (initialWorld (sessionStorage w') local)) = Some (trim key)).
Proof.
  unfold ApiKeyModal_handleSubmit, handleApiKeySubmit. rewrite !trim_trim.
  split; [done|]. split.
  - intros ->. done.
  - intros Hne. apply truthy_nonempty in Hne. rewrite Hne. cbv zeta.
    unfold credential_held. simpl. split; [done|]. intros local.
    by rewrite lookup_insert_eq.
Qed.

Lemma key_is_kept_trimmed_witness :
  ApiKeyModal_handleSubmit "   " (initialWorld ∅ ∅) = initialWorld ∅ ∅
  /\ apiKey (app (initialWorld
                    (sessionStorage (ApiKeyModal_handleSubmit " k-1 " (initialWorld ∅ ∅)))
                    ∅))
     = Some "k-1".
Proof.
  destruct (key_is_kept_trimmed (initialWorld ∅ ∅) "   ") as (_ & H1 & _).
  destruct (key_is_kept_trimmed (initialWorld ∅ ∅) " k-1 ") as (_ & _ & H2).
  split; [apply H1; reflexivity|].
  destruct H2 as [_ H2]; [vm_compute; discriminate|]. apply H2.
Defined.

(** X15.  The Generate button and its handler agree: when the button is
    enabled and an image is shown, [handleGenerate] fails none of its checks
    and hands the edit, with the prompt as typed and the hotspot selected,
    to the key check. *)
Theorem enabled_generate_is_not_refused (w : World) (now : N) (image : File) :
  Generate_disabled (app w) = false -> currentImage (app w) = Some image ->
  exists hotspot,
    editHotspot (app w) = Some hotspot
    /\ step w (Generate now)
       = run_or_defer
           (EditAction image (prompt (app w)) hotspot
              (history (app w)) (historyIndex (app w)))
           now w.
Proof.
  unfold Generate_disabled. intros Hd Hi.
  apply orb_false_iff in Hd as [Hd Hh]. apply orb_false_iff in Hd as [_ Hp].
  simpl. unfold handleGenerate. rewrite Hi, Hp.
  destruct (editHotspot (app w)) as [hotspot|]; [|done]. by exists hotspot.
Qed.

Lemma enabled_generate_is_not_refused_witness :
  let e := {| clientX := 130; clientY := 75 # 2; rect_left := 30; rect_top := 20;
              naturalWidth := 1200; naturalHeight := 900;
              clientWidth := 400; clientHeight := 300 |} in
  let w := run (initialWorld {["user-api-key" := "k"]} ∅)
             [FileSelect (Some [file_of 1]); ImageClick e; PromptChange "blue shirt"] in
  serviceCalls (step w (Generate 4))
  = [generateEditedImage "k" (file_of 1) "blue shirt"
       {| pt_x := inject_Z 300; pt_y := inject_Z 53 |}].
Proof.
  cbv zeta.
  set (w := run _ _).
  destruct (enabled_generate_is_not_refused w 4 (file_of 1) eq_refl eq_refl)
    as (hotspot & Hh & ->).
  vm_compute in Hh. injection Hh as <-. reflexivity.
Defined.

(** ** The hotspot selector: range, order and exact cases *)

Lemma Math_round_integer (z : Z) : Math_round (inject_Z z) = z.
Proof.
  pose proof (Math_round_bounds (inject_Z z)) as [H1 H2].
  assert (H3 : (inject_Z (z - 1) < inject_Z (Math_round (inject_Z z)))%Q).
  { unfold Z.sub. rewrite inject_Z_plus, inject_Z_opp.
    change (inject_Z 1) with 1%Q. lra. }
  assert (H4 : (inject_Z (Math_round (inject_Z z)) < inject_Z (z + 1))%Q).
  { rewrite inject_Z_plus. change (inject_Z 1) with 1%Q. lra. }
  rewrite <- Zlt_Qlt in H3, H4. lia.
Qed.

Lemma Math_round_mono (q q' : Q) : (q <= q')%Q -> Math_round q <= Math_round q'.
Proof. intros H. unfold Math_round. apply Qfloor_resp_le. lra. Qed.

Lemma scale_nonneg (natural client : Z) :
  0 <= natural -> 0 < client -> (0 <= scale natural client)%Q.
Proof.
  intros Hn Hc. unfold scale. apply Qle_shift_div_l.
  - change 0%Q with (inject_Z 0). by rewrite <- Zlt_Qlt.
  - rewrite Qmult_0_l. change 0%Q with (inject_Z 0). by rewrite <- Zle_Qle.
Qed.

Lemma scale_times_client (natural client : Z) :
  0 < client -> (inject_Z client * scale natural client == inject_Z natural)%Q.
Proof.
  intros Hc. unfold scale. field.
  change 0%Q with (inject_Z 0). rewrite inject_Z_injective. lia.
Qed.

(** X16.  A click inside the displayed image gives a hotspot inside the
    native image: for an offset between 0 and the displayed size the native
    coordinate lies between 0 and the natural size, on each axis. *)
Theorem hotspot_inside_image (e : ClickEvent) :
  0 < clientWidth e -> 0 < clientHeight e ->
  0 <= naturalWidth e -> 0 <= naturalHeight e ->
  (0 <= offsetX e <= inject_Z (clientWidth e))%Q ->
  (0 <= offsetY e <= inject_Z (clientHeight e))%Q ->
  0 <= originalX e <= naturalWidth e /\ 0 <= originalY e <= naturalHeight e.
Proof.
  assert (Haxis : forall (offset : Q) (natural client : Z),
            0 < client -> 0 <= natural ->
            (0 <= offset <= inject_Z client)%Q ->
            0 <= native_coordinate offset natural client <= natural).
  { intros offset natural client Hc Hn [Ho1 Ho2].
    pose proof (scale_nonneg natural client Hn Hc) as Hs.
    pose proof (scale_times_client natural client Hc) as Hsc.
    unfold native_coordinate.
    assert (Hlo : Math_round (inject_Z 0) <= Math_round (offset * scale natural client)).
    { apply Math_round_mono. change (inject_Z 0) with 0%Q.
      by apply Qmult_le_0_compat. }
    assert (Hhi : Math_round (offset * scale natural client)
                  <= Math_round (inject_Z natural)).
    { apply Math_round_mono. rewrite <- Hsc. by apply Qmult_le_compat_r. }
    rewrite Math_round_integer in Hlo, Hhi. done. }
  intros HW HH HNW HNH HX HY. unfold originalX, originalY. split; by apply Haxis.
Qed.

Lemma hotspot_inside_image_witness :
  let e := {| clientX := 430; clientY := 20; rect_left := 30; rect_top := 20;
              naturalWidth := 1199; naturalHeight := 900;
              clientWidth := 400; clientHeight := 300 |} in
  originalX e = 1199 /\ originalY e = 0.
Proof.
  cbv zeta.
  set (e := Build_ClickEvent _ _ _ _ _ _ _ _).
  assert (H : 0 <= originalX e <= naturalWidth e
              /\ 0 <= originalY e <= naturalHeight e).
  { apply hotspot_inside_image; try (simpl; lia);
      vm_compute; split; discriminate. }
  split; reflexivity.
Defined.

(** X17.  The hotspot map keeps the order of the offsets: a click further
    right, or further down, never gives a smaller native coordinate. *)
Theorem hotspot_monotone (natural client : Z) (d1 d2 : Q) :
  0 <= natural -> 0 < client -> (d1 <= d2)%Q ->
  native_coordinate d1 natural client <= native_coordinate d2 natural client.
Proof.
  intros Hn Hc Hd. unfold native_coordinate. apply Math_round_mono.
  apply Qmult_le_compat_r; [done | by apply scale_nonneg].
Qed.

Lemma hotspot_monotone_witness :
  native_coordinate (7 # 2) 1200 400 <= native_coordinate (15 # 4) 1200 400.
Proof.
  apply hotspot_monotone; [lia | lia | vm_compute; discriminate].
Defined.

(** X18.  When the natural size is a whole multiple [k] of the displayed size
    the map is exact on whole offsets: pixel [n] of the display is pixel
    [k * n] of the image, and with no scaling at all it is pixel [n]. *)
Theorem hotspot_exact_on_multiples (client k n : Z) :
  0 < client ->
  native_coordinate (inject_Z n) (k * client) client = k * n.
Proof.
  intros Hc. unfold native_coordinate, scale.
  rewrite <- (Math_round_integer (k * n)). apply Math_round_comp.
  rewrite !inject_Z_mult. field.
  change 0%Q with (inject_Z 0). rewrite inject_Z_injective. lia.
Qed.

Lemma hotspot_exact_on_multiples_witness :
  native_coordinate (inject_Z 17) 1200 400 = 51
  /\ native_coordinate (inject_Z 17) 400 400 = 17.
Proof.
  split.
  - exact (hotspot_exact_on_multiples 400 3 17 ltac:(lia)).
  - exact (hotspot_exact_on_multiples 400 1 17 ltac:(lia)).
Defined.

(** ** The crop renderer: after a crop, and the rectangle drawn *)

Lemma dataURLtoFile_name dataurl filename f :
  dataURLtoFile dataurl filename = Normal f -> file_name f = filename.
Proof.
  unfold dataURLtoFile.
  destruct (split_comma dataurl) as [|header [|payload rest]]; try done.
  destruct (match_colon_semicolon header) as [mime|]; [|done].
  destruct (truthy mime); [|done].
  destruct (atob payload); [|done]. simpl. by intros [= <-].
Qed.

(** X19.  A crop that succeeds appends one artifact named
    [cropped-<time>.png] and clears the selection, so that the Apply Crop
    button is disabled again and a second click on it does nothing. *)
Theorem crop_applies_once (env env' : CropEnv) (s : AppState) (c : PixelCrop)
    (image : ImageElement) (f : File) :
  completedCrop s = Some c -> imgRef_current env = Some image ->
  has_context2d env = true ->
  dataURLtoFile (canvas_toDataURL env) (stamped "cropped" (crop_now env)) = Normal f ->
  exists s',
    handleApplyCrop env s = Normal s'
    /\ history s' = slice (history s) 0 (historyIndex s + 1) ++ [f]
    /\ currentImage s' = Some f
    /\ file_name f = stamped "cropped" (crop_now env)
    /\ crop s' = None /\ completedCrop s' = None
    /\ CropPanel_apply_disabled s' = true
    /\ CropPanel_apply_click env' s' = Normal s'.
Proof.
  intros Hc Hi Hctx Hf. eexists. unfold handleApplyCrop.
  rewrite Hc, Hi, Hctx, Hf. simpl. split; [done|].
  split; [done|]. split; [apply index_or_null_last|].
  split.
  { by apply dataURLtoFile_name in Hf. }
  split; [done|]. split; [done|].
  assert (Hd : CropPanel_apply_disabled
                 (addImageToHistory (history s) (historyIndex s) f s) = true).
  { unfold CropPanel_apply_disabled, isCropping. simpl. apply orb_true_r. }
  split; [exact Hd|]. unfold CropPanel_apply_click. by rewrite Hd.
Qed.

Lemma crop_applies_once_witness :
  let s := initialState None
             |> handleImageUpload (file_of 1)
             |> setCompletedCrop
                  (Some {| pc_x := 10; pc_y := 20; pc_width := 50; pc_height := 40 |}) in
  let env := {| imgRef_current :=
                  Some {| img_naturalWidth := 1200; img_naturalHeight := 900;
                          img_width := 400; img_height := 300 |};
                has_context2d := true; devicePixelRatio := 2;
                canvas_toDataURL := "data:image/png;base64,TWFu"; crop_now := 8 |} in
  CropPanel_apply_disabled s = false
  /\ exists s', CropPanel_apply_click env s = Normal s'
                /\ length (history s') = 2%nat
                /\ CropPanel_apply_click env s' = Normal s'.
Proof.
  cbv zeta. set (s := setCompletedCrop _ _). set (env := Build_CropEnv _ _ _ _ _).
  split; [reflexivity|].
  destruct (crop_applies_once env env s
              {| pc_x := 10; pc_y := 20; pc_width := 50; pc_height := 40 |}
              {| img_naturalWidth := 1200; img_naturalHeight := 900;
                 img_width := 400; img_height := 300 |}
              {| file_name := "cropped-8.png"; file_type := "image/png";
                 file_bits := [77; 97; 110]%N |}
              eq_refl eq_refl eq_refl eq_refl)
    as (s' & H1 & H2 & _ & _ & _ & _ & _ & H8).
  exists s'. split; [exact H1|]. split; [by rewrite H2 | exact H8].
Defined.



(** ** Local storage: what is saved is what is read *)

Example stringify_examples :
  JSON.stringify [] = "[]"
  /\ JSON.stringify ["a,b"; "c\d"] = "[" +:+ String JSON.quote "a,b"
       +:+ String JSON.quote ("," +:+ String JSON.quote "c\\d"
       +:+ String JSON.quote "]")
  /\ JSON.parse (JSON.stringify ["a,b"; "c\d"; ""]) = Normal ["a,b"; "c\d"; ""]
  /\ JSON.parse " [ ] " = Normal []
  /\ JSON.parse "[" = Throw (ErrorObject "Unexpected token in JSON").
Proof. repeat split; reflexivity. Qed.

Lemma read_escape (c : ascii) acc seen rest :
  JSON.read (JSON.in_string acc) seen (JSON.escape c ++ rest)
  = JSON.read (JSON.in_string (acc ++ [c])) seen rest.
Proof. destruct c as [[] [] [] [] [] [] [] []]; reflexivity. Qed.

Lemma read_string_body (s : list ascii) acc seen rest :
  JSON.read (JSON.in_string acc) seen
    (concat (JSON.escape <$> s) ++ JSON.quote :: rest)
  = JSON.read JSON.after_string (string_of_list_ascii (acc ++ s) :: seen) rest.
Proof.
  revert acc. induction s as [|c s IH]; intros acc.
  - simpl. by rewrite app_nil_r.
  - cbn [fmap list_fmap concat]. rewrite <- app_assoc, read_escape, IH.
    by rewrite <- app_assoc.
Qed.

Lemma read_quoted (s : string) (p : JSON.Position) seen rest :
  p = JSON.after_open \/ p = JSON.after_comma ->
  JSON.read p seen (JSON.quoted s ++ rest) = JSON.read JSON.after_string (s :: seen) rest.
Proof.
  intros Hp.
  transitivity (JSON.read (JSON.in_string []) seen
                  (concat (JSON.escape <$> list_ascii_of_string s)
                   ++ JSON.quote :: rest)).
  - unfold JSON.quoted. rewrite <- app_comm_cons, <- app_assoc.
    destruct Hp as [-> | ->]; reflexivity.
  - rewrite read_string_body. simpl. by rewrite string_of_list_ascii_of_string.
Qed.

Lemma read_elements (l : list string) (p : JSON.Position) seen :
  l <> [] -> p = JSON.after_open \/ p = JSON.after_comma ->
  JSON.read p seen (JSON.elements l ++ ["]"%char]) = Some (reverse seen ++ l).
Proof.
  revert p seen. induction l as [|s r IH]; intros p seen Hne Hp; [done|].
  destruct r as [|s' r].
  - cbn [JSON.elements]. rewrite read_quoted by done. simpl.
    by rewrite reverse_cons.
  - change (JSON.elements (s :: s' :: r))
      with (JSON.quoted s ++ ","%char :: JSON.elements (s' :: r)).
    rewrite <- app_assoc, read_quoted by done.
    change (JSON.read JSON.after_string (s :: seen)
              ((","%char :: JSON.elements (s' :: r)) ++ ["]"%char]))
      with (JSON.read JSON.after_comma (s :: seen)
              (JSON.elements (s' :: r) ++ ["]"%char])).
    rewrite IH by (done || by right). by rewrite reverse_cons, <- app_assoc.
Qed.

Lemma parse_stringify (l : list string) : JSON.parse (JSON.stringify l) = Normal l.
Proof.
  unfold JSON.parse, JSON.stringify. rewrite list_ascii_of_string_of_list_ascii.
  destruct l as [|s r]; [reflexivity|].
  change (JSON.read JSON.at_start [] ("["%char :: JSON.elements (s :: r) ++ ["]"%char]))
    with (JSON.read JSON.after_open [] (JSON.elements (s :: r) ++ ["]"%char])).
  rewrite read_elements by (done || by left). done.
Qed.

Lemma stringify_truthy (l : list string) : truthy (JSON.stringify l) = true.
Proof. reflexivity. Qed.

Lemma stored_faces_saved (l : list string) (ls : gmap string string) :
  stored_faces (saveFacesToStorage l false ls) = l.
Proof.
  unfold stored_faces, saveFacesToStorage. rewrite lookup_insert_eq.
  by rewrite stringify_truthy, parse_stringify.
Qed.

(** ** The face library *)

Arguments saveFacesToStorage : simpl never.
Arguments stored_faces : simpl never.

(** X21.  What the library saves is what a later mount reads: after a face
    is added, or deleted, and the write succeeds, leaving the generate tab
    and coming back shows exactly the faces that were saved. *)
Theorem saved_faces_are_read_back (w : StartWorld) :
  ss_activeTab (screen w) = generate ->
  (forall (k : nat) (r : Reader) (newFace : string),
     readers w !! k = Some r -> (length (reader_faces r) < 5)%nat ->
     let w' := start_run w [FaceFileRead k newFace false;
                            StartTabClick upload; StartTabClick generate] in
     shown_faces w' = reader_faces r ++ [newFace]
     /\ stored_faces (storage w') = reader_faces r ++ [newFace])
  /\ (forall (lib : FaceLibrary) (face : string),
        library w = Some lib ->
        let w' := start_run w [FaceDelete face false false;
                               StartTabClick upload; StartTabClick generate] in
        shown_faces w'
        = filter (fun g => String.eqb g face = false) (faces lib)
        /\ stored_faces (storage w') = shown_faces w').
Proof.
  intros Htab. split.
  - intros k r newFace Hk Hlen. cbv zeta. unfold start_run. simpl.
    unfold reader_onload. rewrite Hk.
    apply Nat.ltb_lt in Hlen. rewrite Hlen.
    unfold start_tab_click. simpl. rewrite Htab. simpl.
    unfold shown_faces, mount_library. simpl.
    by rewrite stored_faces_saved.
  - intros lib face Hlib. cbv zeta. unfold start_run. simpl.
    unfold handleDeleteFace. rewrite Hlib.
    unfold start_tab_click. simpl.
    assert (Ht : ss_activeTab
                   (if match selectedFace lib with
                       | Some selected => String.eqb selected face
                       | None => false
                       end
                    then set_ss_selectedFace None (screen w) else screen w)
                 = generate).
    { by destruct (match selectedFace lib with Some _ => _ | None => _ end). }
    rewrite Ht. simpl. unfold shown_faces, mount_library. simpl.
    by rewrite stored_faces_saved.
Qed.

Lemma saved_faces_are_read_back_witness :
  let w := start_run (start_mount ∅) [FaceFileChosen] in
  shown_faces (start_run w [FaceFileRead 0 "data:image/png;base64,TWFu" false;
                            StartTabClick upload; StartTabClick generate])
  = ["data:image/png;base64,TWFu"].
Proof.
  cbv zeta. set (w := start_run (start_mount ∅) [FaceFileChosen]).
  destruct (saved_faces_are_read_back w eq_refl) as [Hadd _].
  exact (proj1 (Hadd 0%nat {| reader_instance := 0; reader_faces := [] |}
                  "data:image/png;base64,TWFu" eq_refl ltac:(simpl; lia))).
Defined.







(** X24.  The Create Memory form reaches the service only when nothing is
    loading, the prompt is not blank, a face is selected and a key is held;
    the call then carries that key, the file made from the selected face and
    the prompt as typed. *)
Theorem create_memory_reaches_service
    (s : StartScreenState) (now : N) (w : World) :
  serviceCalls (create_memory_click s now w) <> serviceCalls w ->
  isLoading (app w) = false
  /\ trim (ss_prompt s) <> EmptyString
  /\ exists (face key : string) (faceFile : File),
       ss_selectedFace s = Some face /\ face <> EmptyString
       /\ apiKey (app w) = Some key /\ key <> EmptyString
       /\ dataURLtoFile face (stamped "face" now) = Normal faceFile
       /\ serviceCalls (create_memory_click s now w)
          = serviceCalls w ++ [generateMemory key faceFile (ss_prompt s)].
Proof.
  unfold create_memory_click, handleGenerateClick.
  destruct (ss_selectedFace s) as [face|]; [|done].
  destruct (truthy (trim (ss_prompt s))) eqn:Ep; [|done].
  destruct (truthy face) eqn:Ef; [|done].
  destruct (isLoading (app w)) eqn:El; [done|]. simpl.
  unfold handleCreateMemory, run_or_defer.
  destruct (apiKey (app w)) as [key|] eqn:Ek; [|done].
  destruct (truthy key) eqn:Et; [|done]. simpl.
  destruct (dataURLtoFile face (stamped "face" now)) as [faceFile|] eqn:Ed; [|done].
  simpl. intros _. split; [done|]. split; [by apply truthy_nonempty|].
  exists face, key, faceFile. repeat split; try done; by apply truthy_nonempty.
Qed.

Lemma create_memory_reaches_service_witness :
  let s := {| ss_activeTab := generate; ss_prompt := "at sea";
              ss_selectedFace := Some "data:image/png;base64,TWFu";
              ss_isDraggingOver := false |} in
  let w := initialWorld {["user-api-key" := "k"]} ∅ in
  isLoading (app w) = false
  /\ length (serviceCalls (create_memory_click s 7 w)) = 1%nat.
Proof.
  cbv zeta. set (s := Build_StartScreenState _ _ _ _). set (w := initialWorld _ _).
  assert (Hc : length (serviceCalls (create_memory_click s 7 w)) = 1%nat)
    by (vm_compute; reflexivity).
  split; [|exact Hc].
  refine (proj1 (create_memory_reaches_service s 7 w _)).
  intros Heq. rewrite Heq in Hc. vm_compute in Hc. discriminate.
Defined.

Lemma reachable_current_image_witness :
  let evs := [FileSelect (Some [file_of 1]); UploadNew; FileSelect (Some [file_of 2])] in
  currentImage (app (run (initialWorld ∅ ∅) evs))
  = history (app (run (initialWorld ∅ ∅) evs)) !! 0%nat
  /\ is_Some (currentImage (app (run (initialWorld ∅ ∅) evs))).
Proof.
  cbv zeta.
  destruct (reachable_current_image ∅ ∅
              [FileSelect (Some [file_of 1]); UploadNew; FileSelect (Some [file_of 2])])
    as (_ & _ & H).
  apply H. vm_compute. discriminate.
Defined.
